(** * Energy forecast pipeline: the transformation stage

    A shallow embedding of [scripts/transform_data.py]: the loader
    ([load_raw_data]), the cleaning and feature engineering of
    [transform_data], the persistence step ([save_features_data]) and the
    script body ([main]), followed by the properties the specification
    states about them.

    Conventions of the model.
    - A DataFrame is the list of its rows, in row order; a column is the
      list of its cells.  A cell that pandas shows as NaN is [None].
    - A timestamp is the number of whole hours since 1970-01-01T00:00Z
      (the raw table holds hourly readings).
    - [demand_mwh] is an integer column; the rolling mean is an exact
      rational ([Qc]), where pandas computes a double. *)

From Stdlib Require Import QArith Qcanon.
From stdpp Require Import base decidable option numbers list gmap sorting strings pretty.

Open Scope Z_scope.

(** ** Data model *)

(** A row of [raw_demand], once indexed by its timestamp. *)
Record RawRow := mkRaw {
  timestamp : Z;
  demand_mwh : option Z
}.

(** A row of the frame [transform_data] returns and of [features_demand]. *)
Record FeatureRow := mkFeature {
  f_timestamp : Z;
  f_demand_mwh : option Z;
  hour : Z;
  day_of_week : Z;
  day_of_year : Z;
  month : Z;
  year : Z;
  lag_demand_24h : option Z;
  lag_demand_1_week : option Z;
  rolling_mean_24h : option Qc
}.

Global Instance RawRow_eq_dec : EqDecision RawRow.
Proof. solve_decision. Defined.

(** ** Calendar accessors of a DatetimeIndex *)

Module Calendar.

Definition days (t : Z) : Z := t `div` 24.

Definition hour (t : Z) : Z := t `mod` 24.

(** Monday = 0; 1970-01-01 was a Thursday. *)
Definition day_of_week (t : Z) : Z := (days t + 3) `mod` 7.

(** Proleptic Gregorian date of a day number, counting years from
    1 March so that the leap day ends the year. *)
Definition era (d : Z) : Z := (d + 719468) `div` 146097.
Definition day_of_era (d : Z) : Z := (d + 719468) - era d * 146097.
Definition year_of_era (d : Z) : Z :=
  let doe := day_of_era d in
  (doe - doe `div` 1460 + doe `div` 36524 - doe `div` 146096) `div` 365.
Definition day_of_march_year (d : Z) : Z :=
  let yoe := year_of_era d in
  day_of_era d - (365 * yoe + yoe `div` 4 - yoe `div` 100).
Definition month_from_march (d : Z) : Z := (5 * day_of_march_year d + 2) `div` 153.

Definition month (t : Z) : Z :=
  let mp := month_from_march (days t) in
  if decide (mp < 10) then mp + 3 else mp - 9.

Definition year (t : Z) : Z :=
  let d := days t in
  year_of_era d + era d * 400 + (if decide (month t ≤ 2) then 1 else 0).

Definition is_leap (y : Z) : bool :=
  bool_decide (y `mod` 4 = 0 ∧ (y `mod` 100 ≠ 0 ∨ y `mod` 400 = 0)).

(** 1 January = 1. *)
Definition day_of_year (t : Z) : Z :=
  let doy := day_of_march_year (days t) in
  if decide (month t ≤ 2) then doy - 305
  else doy + 60 + (if is_leap (year t) then 1 else 0).

End Calendar.

(** ** Column operations of pandas used by the script *)

(** [Index.duplicated(keep="first")]: a cell is marked when its value
    has been seen at an earlier position. *)
Fixpoint duplicated_from (seen : gset Z) (idx : list Z) : list bool :=
  match idx with
  | [] => []
  | t :: rest => bool_decide (t ∈ seen) :: duplicated_from ({[t]} ∪ seen) rest
  end.

Definition duplicated (idx : list Z) : list bool := duplicated_from ∅ idx.

(** Boolean indexing [df[mask]]. *)
Fixpoint select {A} (mask : list bool) (rows : list A) : list A :=
  match mask, rows with
  | b :: mask', r :: rows' =>
      if b then r :: select mask' rows' else select mask' rows'
  | _, _ => []
  end.

(** [Series.isnull().sum()]. *)
Definition count_null {A} (col : list (option A)) : nat :=
  length (filter (λ c, c = None) col).

(** [Series.ffill()]: carry the last valid observation forward. *)
Fixpoint ffill_from (last : option Z) (col : list (option Z)) : list (option Z) :=
  match col with
  | [] => []
  | None :: rest => last :: ffill_from last rest
  | Some v :: rest => Some v :: ffill_from (Some v) rest
  end.

Definition ffill (col : list (option Z)) : list (option Z) := ffill_from None col.

(** [Series.shift(n)] for [n >= 0]: the cell of row [i] moves to row
    [i + n]; the first [n] rows become NaN and the length is kept. *)
Definition shift {A} (n : nat) (col : list (option A)) : list (option A) :=
  take (length col) (replicate n None ++ col).

(** The cell of a column at a row position. *)
Definition cell {A} (col : list (option A)) (i : nat) : option A := mjoin (col !! i).

Definition sum_list_Z (l : list Z) : Z := foldr Z.add 0 l.

Definition mean (l : list Z) : Qc :=
  (Qc_of_Z (sum_list_Z l) / Qc_of_Z (Z.of_nat (length l)))%Qc.

(** [Series.rolling(window=w)]: the window of row [i] is the rows
    [i-w+1 .. i], cut at the start of the series. *)
Definition rolling_window {A} (w i : nat) (col : list A) : list A :=
  take (i + 1 - (i + 1 - w)) (drop (i + 1 - w) col).

(** [.rolling(window=w).mean()]: [min_periods] defaults to the window
    size, so a row has a mean only when its window holds [w] valid
    observations. *)
Definition rolling_mean (w : nat) (col : list (option Z)) : list (option Qc) :=
  imap (λ i _,
    let obs := omap id (rolling_window w i col) in
    if decide (w ≤ length obs)%nat then Some (mean obs) else None) col.

(** ** transform_data *)

(** [df[~df.index.duplicated(keep="first")]] *)
Definition drop_duplicates (df : list RawRow) : list RawRow :=
  select (negb <$> duplicated (timestamp <$> df)) df.

(** [df["demand_mwh"] = col] *)
Definition set_demand_mwh (df : list RawRow) (col : list (option Z)) : list RawRow :=
  zip_with (λ r d, mkRaw (timestamp r) d) df col.

(** Step 1 of [transform_data], "Data Cleaning". *)
Definition clean (df : list RawRow) : list RawRow :=
  let df := drop_duplicates df in
  if decide (0 < count_null (demand_mwh <$> df))%nat
  then set_demand_mwh df (ffill (demand_mwh <$> df))
  else df.

(** Step 2 of [transform_data], "Feature Engineering": the calendar
    columns, the two lags and the rolling average. *)
Definition engineer_features (df : list RawRow) : list FeatureRow :=
  let demand := demand_mwh <$> df in
  let lag_24h := shift 24 demand in
  let lag_1_week := shift (24 * 7) demand in
  let rolling := rolling_mean 24 (shift 1 demand) in
  imap (λ i r,
    {| f_timestamp := timestamp r;
       f_demand_mwh := demand_mwh r;
       hour := Calendar.hour (timestamp r);
       day_of_week := Calendar.day_of_week (timestamp r);
       day_of_year := Calendar.day_of_year (timestamp r);
       month := Calendar.month (timestamp r);
       year := Calendar.year (timestamp r);
       lag_demand_24h := cell lag_24h i;
       lag_demand_1_week := cell lag_1_week i;
       rolling_mean_24h := cell rolling i |}) df.

(** A row without NaN in any column (the calendar columns never hold one). *)
Definition complete (r : FeatureRow) : Prop :=
  is_Some (f_demand_mwh r) ∧ is_Some (lag_demand_24h r) ∧
  is_Some (lag_demand_1_week r) ∧ is_Some (rolling_mean_24h r).

Global Instance complete_dec r : Decision (complete r).
Proof. unfold complete. apply _. Defined.

(** [df.dropna()] *)
Definition dropna (df : list FeatureRow) : list FeatureRow := filter complete df.

Definition transform_data (df : list RawRow) : list FeatureRow :=
  dropna (engineer_features (clean df)).

(** What [transform_data] prints while it runs. *)
Inductive Output :=
  | Line (s : string)
  | RawPreview (rows : list RawRow)
  | FeaturePreview (rows : list FeatureRow).

Definition transform_data_prints (df : list RawRow) : list Output :=
  let df1 := drop_duplicates df in
  let nulls := count_null (demand_mwh <$> df1) in
  [Line "Transforming data..."] ++
  (if decide (0 < nulls)%nat
   then [Line ("Found " +:+ pretty nulls +:+
               " missing values. Filling with 'forward fill' method.")]
   else []) ++
  [Line ("Data transformed. New shape: (" +:+
         pretty (length (transform_data df)) +:+ ", 9)")].

(** ** The database and the script around [transform_data] *)

Inductive Exn :=
  | ValueError (msg : string)
  | OperationalError
  | ProgrammingError (msg : string).

Definition Exn_str (e : Exn) : string :=
  match e with
  | ValueError msg => msg
  | OperationalError => "could not connect to server"
  | ProgrammingError msg => msg
  end.

(** The PostgreSQL database [energy_db]: whether the server answers,
    and its two tables ([None]: the table does not exist). *)
Record Database := mkDatabase {
  reachable : bool;
  raw_demand : option (list RawRow);
  features_demand : option (list FeatureRow)
}.

(** What a run can see and change: the environment variable, the
    database and standard output. *)
Record World := mkWorld {
  DB_PASSWORD : option string;
  db : Database;
  stdout : list Output
}.

Definition print (o : Output) (w : World) : World :=
  mkWorld (DB_PASSWORD w) (db w) (stdout w ++ [o]).

Definition prints (os : list Output) (w : World) : World :=
  mkWorld (DB_PASSWORD w) (db w) (stdout w ++ os).

Definition set_db (d : Database) (w : World) : World :=
  mkWorld (DB_PASSWORD w) d (stdout w).

(** The engine only records how to connect; no connection is made
    before the first query. *)
Inductive Engine := engine_for (password : string).

Definition get_sql_engine (w : World) : World * option Engine :=
  let attempt : Exn + Engine :=
    match DB_PASSWORD w with
    | None | Some EmptyString => inl (ValueError "DB_PASSWORD not found in .env file!")
    | Some pw => inr (engine_for pw)
    end in
  match attempt with
  | inr engine =>
      (print (Line "Database connection engine created successfully!") w, Some engine)
  | inl e =>
      (print (Line ("Could not create database engine: " +:+ Exn_str e)) w, None)
  end.

(** [pd.read_sql_query("SELECT * FROM raw_demand;", engine)] *)
Definition read_raw_demand (d : Database) : Exn + list RawRow :=
  if reachable d then
    match raw_demand d with
    | Some rows => inr rows
    | None => inl (ProgrammingError "relation raw_demand does not exist")
    end
  else inl OperationalError.

(** The order of the index. *)
Definition by_timestamp (a b : RawRow) : Prop := timestamp a ≤ timestamp b.

Global Instance by_timestamp_dec : RelDecision by_timestamp.
Proof. intros a b. unfold by_timestamp. apply _. Defined.

(** [df.sort_index()]: ascending by timestamp.  pandas does not fix the
    order of rows with equal timestamps; the properties below use only
    that the result is sorted and holds the same rows. *)
Definition sort_index (df : list RawRow) : list RawRow := merge_sort by_timestamp df.

(** [pd.to_datetime] and [set_index] give the rows read their
    timestamp index; the frame is then sorted. *)
Definition load_raw_data (w : World) : World * option (list RawRow) :=
  let w := print (Line "Loading data from 'raw_demand' table...") w in
  match read_raw_demand (db w) with
  | inr rows =>
      let df := sort_index rows in
      (print (Line ("Successfully loaded " +:+ pretty (length df) +:+ " records.")) w,
       Some df)
  | inl e => (print (Line ("Error loading data: " +:+ Exn_str e)) w, None)
  end.

(** [df.to_sql("features_demand", engine, if_exists="replace", ...)]:
    drop the table when it exists, create it, insert the rows. *)
Definition drop_features (d : Database) : Database :=
  mkDatabase (reachable d) (raw_demand d) None.

Definition create_features (d : Database) : Database :=
  mkDatabase (reachable d) (raw_demand d) (Some []).

Definition insert_features (rows : list FeatureRow) (d : Database) : Database :=
  mkDatabase (reachable d) (raw_demand d) ((λ old, old ++ rows) <$> features_demand d).

Definition to_sql_replace (df : list FeatureRow) (d : Database) : Exn + Database :=
  if reachable d
  then inr (insert_features df (create_features (drop_features d)))
  else inl OperationalError.

Definition save_features_data (df : list FeatureRow) (w : World) : World :=
  let w := print (Line "Saving data to 'features_demand' table...") w in
  match to_sql_replace df (db w) with
  | inr d =>
      print (Line ("Successfully saved " +:+ pretty (length df) +:+
                   " records to 'features_demand'.")) (set_db d w)
  | inl e => print (Line ("Error saving data: " +:+ Exn_str e)) w
  end.

(** The line feed that opens the two preview banners. *)
Definition nl : string := String (Ascii.ascii_of_nat 10) EmptyString.

(** How the script ends: every exception raised inside the helper
    functions is caught there, so the body runs to its end. *)
Inductive Exit :=
  | Finished
  | Uncaught (e : Exn).

(** The body under [if __name__ == "__main__":]. *)
Definition main (w : World) : World * Exit :=
  let '(w, engine) := get_sql_engine w in
  match engine with
  | Some _ =>
      let '(w, raw_df) := load_raw_data w in
      match raw_df with
      | Some raw_df =>
          let w := print (Line (nl +:+ "--- Raw data loaded. Here's a preview: ---")) w in
          let w := print (RawPreview (take 5 raw_df)) w in
          let transformed_df := transform_data raw_df in
          let w := prints (transform_data_prints raw_df) w in
          if decide (transformed_df ≠ [])
          then
            let w := print (Line (nl +:+ "--- Data transformed. Here's a preview: ---")) w in
            let w := print (FeaturePreview (take 5 transformed_df)) w in
            (save_features_data transformed_df w, Finished)
          else
            (print (Line "Data transformation failed or resulted in an empty DataFrame.") w,
             Finished)
      | None => (print (Line "Data loading failed.") w, Finished)
      end
  | None => (w, Finished)
  end.

(** ** ingest_data.py: filling the raw table *)

Module Ingest.

(** The answer to [requests.get(url)]: the status code, the body as
    text, and the rows under [response.data] of its JSON, each as the
    pair the script inserts ([pd.to_datetime(row["period"])],
    [row["value"]]). *)
Record Response := mkResponse {
  status_code : Z;
  text : string;
  data : list RawRow
}.

(** What a run of the script sees: the API key, the answer of the API,
    and the world of database and standard output. *)
Record Env := mkEnv {
  EIA_API_KEY : option string;
  response : Response;
  world : World
}.

Inductive Connection := connection.

(** Only [psycopg2.OperationalError] is caught: the [ValueError] for a
    missing password leaves the function ([inl]). *)
Definition get_db_connection (w : World) : World * (Exn + option Connection) :=
  match DB_PASSWORD w with
  | None | Some EmptyString => (w, inl (ValueError "DB_PASSWORD not found in .env file!"))
  | Some _ =>
      if reachable (db w)
      then (print (Line "Database connection successful!") w, inr (Some connection))
      else (print (Line ("Could not connect to the database: " +:+
                         Exn_str OperationalError)) w, inr None)
  end.

Definition fetch_eia_data (r : Response) (w : World) : World * option (list RawRow) :=
  let w := print (Line "Fetching data from EIA API...") w in
  if decide (status_code r = 200)
  then (print (Line "API request successful!") w, Some (data r))
  else
    let w := print (Line ("Failed to fetch data from API. Status Code: " +:+
                          pretty (status_code r))) w in
    (print (Line ("Response: " +:+ text r)) w, None).

(** [INSERT INTO raw_demand ... ON CONFLICT (timestamp) DO NOTHING]:
    the table after the statement and the number of rows it affected. *)
Definition insert_raw_demand (row : RawRow) (table : list RawRow) : list RawRow * nat :=
  if decide (timestamp row ∈ timestamp <$> table)
  then (table, 0%nat)
  else (table ++ [row], 1%nat).

(** [cur.executemany(insert_query, rows)]: one statement per row, in
    order; [cur.rowcount] adds up the rows affected. *)
Fixpoint executemany (rows : list RawRow) (table : list RawRow) : list RawRow * nat :=
  match rows with
  | [] => (table, 0%nat)
  | row :: rest =>
      let '(table, n) := insert_raw_demand row table in
      let '(table, m) := executemany rest table in
      (table, (n + m)%nat)
  end.

(** [CREATE TABLE IF NOT EXISTS raw_demand (...)] *)
Definition create_raw_demand (d : Database) : Database :=
  mkDatabase (reachable d) (Some (default [] (raw_demand d))) (features_demand d).

Definition set_raw_demand (table : list RawRow) (d : Database) : Database :=
  mkDatabase (reachable d) (Some table) (features_demand d).

(** The body under [if __name__ == "__main__":]. *)
Definition main (e : Env) : World * Exit :=
  let w := world e in
  match EIA_API_KEY e with
  | None | Some EmptyString =>
      (w, Uncaught (ValueError "EIA_API_KEY not found in .env file!"))
  | Some _ =>
      let '(w, eia_data) := fetch_eia_data (response e) w in
      match eia_data with
      | Some ((_ :: _) as eia_data) =>
          let '(w, conn) := get_db_connection w in
          match conn with
          | inl exn => (w, Uncaught exn)
          | inr None => (w, Finished)
          | inr (Some _) =>
              let w := set_db (create_raw_demand (db w)) w in
              let w := print (Line "Table 'raw_demand' is ready.") w in
              let '(table, rowcount) :=
                executemany eia_data (default [] (raw_demand (db w))) in
              let w := set_db (set_raw_demand table (db w)) w in
              (print (Line ("Successfully inserted/updated " +:+ pretty rowcount +:+
                            " records.")) w, Finished)
          end
      | _ => (w, Finished)
      end
  end.

End Ingest.

(** ** train_model.py: reading the feature table back *)

Module Train.

(** As in [transform_data.py], without the line on success. *)
Definition get_sql_engine (w : World) : World * option Engine :=
  let attempt : Exn + Engine :=
    match DB_PASSWORD w with
    | None | Some EmptyString => inl (ValueError "DB_PASSWORD not found in .env file!")
    | Some pw => inr (engine_for pw)
    end in
  match attempt with
  | inr engine => (w, Some engine)
  | inl e =>
      (print (Line ("Could not create database engine: " +:+ Exn_str e)) w, None)
  end.

Definition by_f_timestamp (a b : FeatureRow) : Prop := f_timestamp a ≤ f_timestamp b.

Global Instance by_f_timestamp_dec : RelDecision by_f_timestamp.
Proof. intros a b. unfold by_f_timestamp. apply _. Defined.

(** [pd.read_sql_query("SELECT * FROM features_demand ORDER BY timestamp;", ...)] *)
Definition read_features_demand (d : Database) : Exn + list FeatureRow :=
  if reachable d then
    match features_demand d with
    | Some rows => inr (merge_sort by_f_timestamp rows)
    | None => inl (ProgrammingError "relation features_demand does not exist")
    end
  else inl OperationalError.

Definition load_features_data (w : World) : World * option (list FeatureRow) :=
  let w := print (Line "Loading data from 'features_demand' table...") w in
  match read_features_demand (db w) with
  | inr df =>
      (print (Line ("Successfully loaded " +:+ pretty (length df) +:+ " records.")) w,
       Some df)
  | inl e => (print (Line ("Error loading data: " +:+ Exn_str e)) w, None)
  end.

End Train.

(** ** Vocabulary of the properties *)

(** [drop_duplicates] started with a set of timestamps already seen. *)
Definition drop_duplicates_from (seen : gset Z) (df : list RawRow) : list RawRow :=
  select (negb <$> duplicated_from seen (timestamp <$> df)) df.

(** The rows of a frame that carry a given timestamp, in row order. *)
Definition rows_at (ts : Z) (df : list RawRow) : list RawRow :=
  filter (λ r, timestamp r = ts) df.

(** The [k] cells of a column just before row [i]: rows [i-k .. i-1]. *)
Definition prior_window {A} (k i : nat) (col : list A) : list A :=
  take k (drop (i - k) col).

(** The three look-back columns of a feature row. *)
Definition lookback (f : FeatureRow) : option Z * option Z * option Qc :=
  (lag_demand_24h f, lag_demand_1_week f, rolling_mean_24h f).

(** The number of rows whose timestamp repeats that of an earlier row. *)
Definition duplicate_count (df : list RawRow) : nat :=
  length df - size (list_to_set (timestamp <$> df) : gset Z).

(** Strictly increasing timestamps. *)
Definition strictly_increasing (ts : list Z) : Prop := StronglySorted Z.lt ts.

(** The number of rows at the head of a column that miss their value. *)
Fixpoint leading_missing {A} (col : list (option A)) : nat :=
  match col with
  | None :: rest => S (leading_missing rest)
  | _ => 0%nat
  end.

(** The calendar columns of a feature row. *)
Definition calendar (f : FeatureRow) : Z * Z * Z * Z * Z :=
  (hour f, day_of_week f, day_of_year f, month f, year f).

(** The run has no API key: the variable is unset or empty. *)
Definition EIA_API_KEY_missing (e : Ingest.Env) : Prop :=
  Ingest.EIA_API_KEY e = None ∨ Ingest.EIA_API_KEY e = Some EmptyString.

(** The demand values a frame holds. *)
Definition demands (df : list RawRow) : list Z := omap demand_mwh df.

(** ** Inputs of the scenarios *)

Definition hourly (start : Z) (demand : nat → option Z) (n : nat) : list RawRow :=
  (λ i, mkRaw (start + Z.of_nat i) (demand i)) <$> seq 0 n.

(** 200 hourly rows from 2024-01-01T00:00Z with demand [1000 + i]. *)
Definition ramp200 : list RawRow := hourly 473352 (λ i, Some (1000 + Z.of_nat i)) 200.

(** The demands [1000 + a .. 1000 + a + n - 1]. *)
Definition ramp_demands (a n : nat) : list Z := (λ i, 1000 + Z.of_nat i) <$> seq a n.

(** The row of [ramp200] at index 168, 2024-01-08T00:00Z, with its features. *)
Definition ramp200_first : FeatureRow :=
  {| f_timestamp := 473520; f_demand_mwh := Some 1168;
     hour := 0; day_of_week := 0; day_of_year := 8; month := 1; year := 2024;
     lag_demand_24h := Some 1144; lag_demand_1_week := Some 1000;
     rolling_mean_24h := Some (mean (ramp_demands 144 24)) |}.

(** A series that opens with a gap of five hours. *)
Definition leading_gap (n : nat) : list RawRow :=
  hourly 0 (λ i, if decide (i < 5)%nat then None else Some 500) n.

(** [ramp200] followed by a second reading for its first hour. *)
Definition ramp200_dup : list RawRow := ramp200 ++ [mkRaw 473352 (Some 5)].

(** Six hourly rows, a gap of two hours, then an observation. *)
Definition gappy : list RawRow :=
  leading_gap 6 ++ [mkRaw 6 None; mkRaw 7 None; mkRaw 8 (Some 7)].

(** Three hourly rows: too few for any look-back value. *)
Definition short_series : list RawRow := hourly 0 (λ _, Some 1) 3.

(** A run of the ingestion script: the API answers with a status and
    rows, the database holds a raw table. *)
Definition ingest_env (key pw : option string) (status : Z) (batch : list RawRow)
    (reach : bool) (raw : option (list RawRow)) : Ingest.Env :=
  Ingest.mkEnv key (Ingest.mkResponse status "body" batch)
    (mkWorld pw (mkDatabase reach raw None) []).

(** A database that answers, with the given raw rows and stored table. *)
Definition world_with (rows : list RawRow) (old : option (list FeatureRow)) : World :=
  mkWorld (Some "secret") (mkDatabase true (Some rows) old) [].

(** The same, with a server that does not answer. *)
Definition world_down (rows : list RawRow) (old : option (list FeatureRow)) : World :=
  mkWorld (Some "secret") (mkDatabase false (Some rows) old) [].

(** * Properties *)

(** ** Deduplication *)

Lemma drop_duplicates_from_cons seen r df :
  drop_duplicates_from seen (r :: df) =
    if decide (timestamp r ∈ seen)
    then drop_duplicates_from ({[timestamp r]} ∪ seen) df
    else r :: drop_duplicates_from ({[timestamp r]} ∪ seen) df.
Proof.
  unfold drop_duplicates_from. simpl.
  case_bool_decide; case_decide; done.
Qed.

Lemma drop_duplicates_unfold df : drop_duplicates df = drop_duplicates_from ∅ df.
Proof. reflexivity. Qed.

Lemma rows_at_cons ts r df :
  rows_at ts (r :: df) =
    if decide (timestamp r = ts) then r :: rows_at ts df else rows_at ts df.
Proof. unfold rows_at. rewrite filter_cons. done. Qed.

Lemma rows_at_drop_duplicates_from ts df : ∀ seen,
  rows_at ts (drop_duplicates_from seen df) =
    if decide (ts ∈ seen) then [] else option_list (head (rows_at ts df)).
Proof.
  induction df as [|r df IH]; intros seen.
  - by case_decide.
  - rewrite drop_duplicates_from_cons, rows_at_cons.
    destruct (decide (timestamp r ∈ seen)) as [Hin|Hout].
    + rewrite IH. repeat case_decide; try done; set_solver.
    + rewrite rows_at_cons, IH. repeat case_decide; try done; set_solver.
Qed.

Lemma drop_duplicates_from_sublist df : ∀ seen,
  drop_duplicates_from seen df `sublist_of` df.
Proof.
  induction df as [|r df IH]; intros seen.
  - constructor.
  - rewrite drop_duplicates_from_cons. case_decide.
    + by apply sublist_cons.
    + by apply sublist_skip.
Qed.

Lemma drop_duplicates_from_fresh df : ∀ seen r,
  r ∈ drop_duplicates_from seen df → timestamp r ∉ seen.
Proof.
  induction df as [|r0 df IH]; intros seen r.
  - inversion 1.
  - rewrite drop_duplicates_from_cons. case_decide.
    + intros Hr%IH. set_solver.
    + intros [->|Hr%IH]%elem_of_cons; set_solver.
Qed.

Lemma drop_duplicates_from_NoDup df : ∀ seen,
  NoDup (timestamp <$> drop_duplicates_from seen df).
Proof.
  induction df as [|r df IH]; intros seen.
  - constructor.
  - rewrite drop_duplicates_from_cons. case_decide; [done|].
    rewrite fmap_cons. constructor; [|done].
    intros (r' & Heq & Hr')%list_elem_of_fmap.
    apply drop_duplicates_from_fresh in Hr'. set_solver.
Qed.

Lemma drop_duplicates_from_id df : ∀ seen,
  NoDup (timestamp <$> df) →
  (∀ r, r ∈ df → timestamp r ∉ seen) →
  drop_duplicates_from seen df = df.
Proof.
  induction df as [|r df IH]; intros seen Hnd Hfresh; [done|].
  rewrite drop_duplicates_from_cons.
  rewrite fmap_cons in Hnd. apply NoDup_cons in Hnd as [Hr Hnd].
  case_decide as Hin.
  - exfalso. apply (Hfresh r); [by left|done].
  - f_equal. apply IH; [done|].
    intros r' Hr'. pose proof (Hfresh r' ltac:(by right)).
    assert (timestamp r' ≠ timestamp r).
    { intros Heq. apply Hr. rewrite <- Heq. by apply list_elem_of_fmap_2. }
    set_solver.
Qed.

Lemma drop_duplicates_from_length df : ∀ seen,
  length (drop_duplicates_from seen df) =
    size (list_to_set (timestamp <$> df) ∖ seen : gset Z).
Proof.
  induction df as [|r df IH]; intros seen.
  - simpl. replace (∅ ∖ seen) with (∅ : gset Z) by set_solver. done.
  - rewrite drop_duplicates_from_cons, fmap_cons, list_to_set_cons.
    case_decide as Hin.
    + rewrite IH. f_equal. set_solver.
    + cbn [length]. rewrite IH.
      set (rest := list_to_set (timestamp <$> df) : gset Z).
      assert (({[timestamp r]} ∪ rest) ∖ seen =
              {[timestamp r]} ∪ rest ∖ ({[timestamp r]} ∪ seen)) as ->.
      { apply set_eq. intros x. destruct (decide (x = timestamp r)); set_solver. }
      rewrite (size_union (C:=gset Z) {[timestamp r]}) by set_solver.
      by rewrite size_singleton.
Qed.

Lemma drop_duplicates_from_app l1 l2 : ∀ seen,
  drop_duplicates_from seen (l1 ++ l2) =
    drop_duplicates_from seen l1 ++
    drop_duplicates_from (list_to_set (timestamp <$> l1) ∪ seen) l2.
Proof.
  induction l1 as [|r l1 IH]; intros seen.
  - rewrite app_nil_l, fmap_nil, list_to_set_nil, (left_id_L ∅ (∪)). done.
  - rewrite <- app_comm_cons, !drop_duplicates_from_cons, IH.
    rewrite fmap_cons, list_to_set_cons.
    replace (list_to_set (timestamp <$> l1) ∪ ({[timestamp r]} ∪ seen))
      with ({[timestamp r]} ∪ list_to_set (timestamp <$> l1) ∪ seen : gset Z)
      by set_solver.
    by case_decide.
Qed.

(** ** Forward fill *)

Lemma ffill_from_length col : ∀ last, length (ffill_from last col) = length col.
Proof.
  induction col as [|[v|] col IH]; intros last; simpl; [done|..]; by rewrite IH.
Qed.

(** A valid observation is kept. *)
Lemma ffill_from_valid col : ∀ last i v,
  col !! i = Some (Some v) → ffill_from last col !! i = Some (Some v).
Proof.
  induction col as [|c col IH]; intros last i v Hi; [done|].
  destruct i as [|i].
  - simpl in Hi. by simplify_eq.
  - simpl in Hi. destruct c; simpl; by apply IH.
Qed.

(** A gap with nothing valid before it takes the carried value. *)
Lemma ffill_from_leading col : ∀ last i,
  (∀ k, (k ≤ i)%nat → col !! k = Some None) →
  ffill_from last col !! i = Some last.
Proof.
  induction col as [|c col IH]; intros last i Hgap.
  - specialize (Hgap 0%nat ltac:(lia)). done.
  - pose proof (Hgap 0%nat ltac:(lia)) as H0. simpl in H0. simplify_eq.
    destruct i as [|i]; [done|]. simpl. apply IH.
    intros k Hk. apply (Hgap (S k)). lia.
Qed.

(** A gap takes the nearest valid observation before it. *)
Lemma ffill_from_carry col : ∀ last i j v,
  (j < i)%nat → col !! j = Some (Some v) →
  (∀ k, (j < k ≤ i)%nat → col !! k = Some None) →
  ffill_from last col !! i = Some (Some v).
Proof.
  induction col as [|c col IH]; intros last i j v Hji Hj Hgap; [done|].
  destruct i as [|i]; [lia|].
  destruct j as [|j].
  - simpl in Hj. simplify_eq. simpl. apply ffill_from_leading.
    intros k Hk. apply (Hgap (S k)). lia.
  - assert (ffill_from (match c with Some v' => Some v' | None => last end) col !! i
            = Some (Some v)) as Hrec.
    { apply (IH _ i j v); [lia|done|].
      intros k Hk. apply (Hgap (S k)). lia. }
    by destruct c.
Qed.

Lemma count_null_0 {A} (col : list (option A)) :
  count_null col = 0%nat ↔ Forall is_Some col.
Proof.
  unfold count_null. induction col as [|c col IH].
  - split; [constructor|done].
  - rewrite filter_cons. destruct c as [a|].
    + rewrite decide_False by done. rewrite IH. split.
      * intros ?. constructor; [by eexists|done].
      * by inversion 1.
    + rewrite decide_True by done. simpl. split; [done|].
      inversion 1 as [|? ? [? ?]]; done.
Qed.

(** Without gaps there is nothing to fill. *)
Lemma ffill_from_no_null col : ∀ last, Forall is_Some col → ffill_from last col = col.
Proof.
  induction col as [|c col IH]; intros last Hall; [done|].
  apply Forall_cons in Hall as [[v ->] Hall]. simpl. by rewrite IH.
Qed.

Lemma ffill_from_app l1 : ∀ last l2,
  ∃ last', ffill_from last (l1 ++ l2) = ffill_from last l1 ++ ffill_from last' l2.
Proof.
  induction l1 as [|c l1 IH]; intros last l2.
  - by exists last.
  - destruct c as [v|]; simpl.
    + destruct (IH (Some v) l2) as [last' ->]. by exists last'.
    + destruct (IH last l2) as [last' ->]. by exists last'.
Qed.

(** ** The cleaning step *)

Lemma set_demand_mwh_id df : set_demand_mwh df (demand_mwh <$> df) = df.
Proof.
  unfold set_demand_mwh. induction df as [|[ts d] df IH]; [done|].
  simpl. f_equal. exact IH.
Qed.

(** The guard on the number of gaps only saves work: filling a column
    without gaps changes nothing. *)
Lemma clean_eq df :
  clean df =
    set_demand_mwh (drop_duplicates df) (ffill (demand_mwh <$> drop_duplicates df)).
Proof.
  unfold clean. case_decide as Hnull; [done|].
  assert (count_null (demand_mwh <$> drop_duplicates df) = 0%nat) as H0 by lia.
  apply count_null_0 in H0. unfold ffill.
  by rewrite ffill_from_no_null, set_demand_mwh_id.
Qed.

Lemma set_demand_mwh_timestamps df col :
  length col = length df → timestamp <$> set_demand_mwh df col = timestamp <$> df.
Proof.
  unfold set_demand_mwh. revert col.
  induction df as [|r df IH]; intros [|c col] Hlen; simplify_eq/=; [done|].
  f_equal. by apply IH.
Qed.

Lemma set_demand_mwh_demand df col :
  length col = length df → demand_mwh <$> set_demand_mwh df col = col.
Proof.
  unfold set_demand_mwh. revert col.
  induction df as [|r df IH]; intros [|c col] Hlen; simplify_eq/=; [done|].
  f_equal. by apply IH.
Qed.

Lemma clean_timestamps df : timestamp <$> clean df = timestamp <$> drop_duplicates df.
Proof.
  rewrite clean_eq. apply set_demand_mwh_timestamps.
  unfold ffill. by rewrite ffill_from_length, length_fmap.
Qed.

Lemma clean_demand df :
  demand_mwh <$> clean df = ffill (demand_mwh <$> drop_duplicates df).
Proof.
  rewrite clean_eq. apply set_demand_mwh_demand.
  unfold ffill. by rewrite ffill_from_length, length_fmap.
Qed.

Lemma clean_length df : length (clean df) = length (drop_duplicates df).
Proof.
  rewrite <- (length_fmap timestamp (clean df)), clean_timestamps.
  by rewrite length_fmap.
Qed.

Lemma clean_NoDup df : NoDup (timestamp <$> clean df).
Proof. rewrite clean_timestamps. apply drop_duplicates_from_NoDup. Qed.

(** A frame without duplicate timestamps and without gaps is left as it is. *)
Lemma clean_fixed df :
  NoDup (timestamp <$> df) → Forall (λ r, is_Some (demand_mwh r)) df →
  clean df = df.
Proof.
  intros Hnd Hvalid. rewrite clean_eq, drop_duplicates_unfold.
  rewrite drop_duplicates_from_id by (done || set_solver).
  unfold ffill. rewrite ffill_from_no_null by by apply Forall_fmap.
  apply set_demand_mwh_id.
Qed.

(** ** Shifted and rolling columns *)

Lemma shift_length {A} n (col : list (option A)) : length (shift n col) = length col.
Proof. unfold shift. rewrite length_take, length_app, length_replicate. lia. Qed.

Lemma cell_shift {A} n (col : list (option A)) i :
  (i < length col)%nat →
  cell (shift n col) i = if decide (n ≤ i)%nat then cell col (i - n) else None.
Proof.
  intros Hi. unfold cell, shift. rewrite lookup_take_lt by done.
  case_decide.
  - rewrite lookup_app_r by (rewrite length_replicate; lia).
    by rewrite length_replicate.
  - rewrite lookup_app_l by (rewrite length_replicate; lia).
    by rewrite lookup_replicate_2 by lia.
Qed.

Lemma shift_1_cons {A} (c : option A) col :
  shift 1 (c :: col) = None :: take (length col) (c :: col).
Proof. reflexivity. Qed.

Lemma rolling_window_shift_1 {A} w i (col : list (option A)) :
  (0 < w ≤ i)%nat → (i < length col)%nat →
  rolling_window w i (shift 1 col) = prior_window w i col.
Proof.
  intros Hw Hi. unfold rolling_window, prior_window.
  destruct col as [|c col]; [simpl in Hi; lia|]. rewrite shift_1_cons.
  replace (i + 1 - (i + 1 - w))%nat with w by lia.
  replace (i + 1 - w)%nat with (S (i - w)) by lia.
  cbn [drop]. apply list_eq. intros j.
  rewrite !lookup_take, !lookup_drop. case_decide; [|done].
  apply lookup_take_lt. simpl in Hi. lia.
Qed.

Lemma length_omap_id {A} (l : list (option A)) : (length (omap id l) ≤ length l)%nat.
Proof. induction l as [|[a|] l IH]; cbn [omap list_omap id length] in *; simpl; lia. Qed.

Lemma rolling_window_shift_1_short {A} w i (col : list (option A)) :
  (i < w)%nat → (i < length col)%nat →
  (length (omap id (rolling_window w i (shift 1 col))) < w)%nat.
Proof.
  intros Hw Hi. unfold rolling_window.
  destruct col as [|c col]; [simpl in Hi; lia|]. rewrite shift_1_cons.
  replace (i + 1 - w)%nat with 0%nat by lia.
  replace (i + 1 - 0)%nat with (S i) by lia. cbn [drop take omap id].
  pose proof (length_omap_id (take i (take (length col) (c :: col)))) as Hle.
  rewrite length_take in Hle. simpl. unfold omap in Hle. lia.
Qed.

(** A window of valid observations yields them all; any gap leaves
    fewer observations than cells. *)
Lemma omap_id_mapM {A} (win : list (option A)) :
  match mapM id win with
  | Some vals => omap id win = vals ∧ length vals = length win ∧ win = Some <$> vals
  | None => (length (omap id win) < length win)%nat
  end.
Proof.
  induction win as [|[a|] win IH].
  - done.
  - cbn. destruct (mapM id win) as [vals|]; cbn.
    + destruct IH as (Hobs & Hlen & Hwin).
      split; [by f_equal|]. split; [by f_equal|]. by f_equal.
    + unfold omap in *. lia.
  - cbn. pose proof (length_omap_id win). unfold omap in *. lia.
Qed.

Lemma cell_rolling_mean w col i :
  (i < length col)%nat →
  cell (rolling_mean w col) i =
    let obs := omap id (rolling_window w i col) in
    if decide (w ≤ length obs)%nat then Some (mean obs) else None.
Proof.
  intros Hi. unfold cell, rolling_mean. rewrite list_lookup_imap.
  destruct (lookup_lt_is_Some_2 col i Hi) as [c ->]. done.
Qed.

(** The rolling average of [transform_data]: from row 24 on, the mean of
    the 24 rows before the row, when all of them are valid. *)
Lemma cell_rolling_mean_24h col i :
  (i < length col)%nat →
  cell (rolling_mean 24 (shift 1 col)) i =
    if decide (24 ≤ i)%nat then mean <$> mapM id (prior_window 24 i col) else None.
Proof.
  intros Hi. rewrite cell_rolling_mean by by rewrite shift_length.
  cbv zeta. destruct (decide (24 ≤ i)%nat) as [H24|H24].
  - rewrite (rolling_window_shift_1 24 i col) by (done || lia).
    assert (length (prior_window 24 i col) = 24%nat) as Hlen.
    { unfold prior_window. rewrite length_take, length_drop. lia. }
    pose proof (omap_id_mapM (prior_window 24 i col)) as Hwin.
    destruct (mapM id (prior_window 24 i col)) as [vals|].
    + destruct Hwin as (-> & Hvals & _). rewrite decide_True by lia. done.
    + rewrite decide_False by lia. done.
  - pose proof (rolling_window_shift_1_short 24 i col ltac:(lia) Hi).
    rewrite decide_False by lia. done.
Qed.

(** ** The feature rows *)

Lemma engineer_features_length c : length (engineer_features c) = length c.
Proof. unfold engineer_features. by rewrite length_imap. Qed.

Lemma engineer_features_lookup c i f :
  engineer_features c !! i = Some f →
  ∃ r, c !! i = Some r ∧
    f_timestamp f = timestamp r ∧ f_demand_mwh f = demand_mwh r ∧
    lag_demand_24h f =
      (if decide (24 ≤ i)%nat then cell (demand_mwh <$> c) (i - 24) else None) ∧
    lag_demand_1_week f =
      (if decide (168 ≤ i)%nat then cell (demand_mwh <$> c) (i - 168) else None) ∧
    rolling_mean_24h f =
      (if decide (24 ≤ i)%nat
       then mean <$> mapM id (prior_window 24 i (demand_mwh <$> c)) else None).
Proof.
  unfold engineer_features. rewrite list_lookup_imap.
  destruct (c !! i) as [r|] eqn:Hr; [|done]. intros [= <-].
  assert (i < length (demand_mwh <$> c))%nat as Hi.
  { rewrite length_fmap. by eapply lookup_lt_Some. }
  exists r. cbn [f_timestamp f_demand_mwh lag_demand_24h lag_demand_1_week
                 rolling_mean_24h].
  rewrite !cell_shift, cell_rolling_mean_24h by done. done.
Qed.

Lemma engineer_features_timestamps c : f_timestamp <$> engineer_features c = timestamp <$> c.
Proof.
  apply list_eq. intros i. rewrite !list_lookup_fmap.
  unfold engineer_features. rewrite list_lookup_imap.
  by destruct (c !! i).
Qed.

Lemma cell_prefix {A} (col col' : list (option A)) i j :
  take i col' = take i col → (j < i)%nat → cell col' j = cell col j.
Proof.
  intros Htake Hj. unfold cell.
  by rewrite <- (lookup_take_lt col i j), <- (lookup_take_lt col' i j), Htake.
Qed.

Lemma prior_window_prefix {A} k i (col col' : list A) :
  take i col' = take i col → (k ≤ i)%nat →
  prior_window k i col' = prior_window k i col.
Proof.
  intros Htake Hk. unfold prior_window. rewrite !take_drop_commute.
  replace (i - k + k)%nat with i by lia. by rewrite Htake.
Qed.

(** The look-back columns of row [i] are determined by the rows before it. *)
Lemma lookback_prefix c c' i f f' :
  take i c' = take i c →
  engineer_features c !! i = Some f → engineer_features c' !! i = Some f' →
  lookback f' = lookback f.
Proof.
  intros Htake Hf Hf'.
  apply engineer_features_lookup in Hf as (r & _ & _ & _ & H24 & H168 & Hroll).
  apply engineer_features_lookup in Hf' as (r' & _ & _ & _ & H24' & H168' & Hroll').
  assert (take i (demand_mwh <$> c') = take i (demand_mwh <$> c)) as Hcol
    by by rewrite <- !fmap_take, Htake.
  unfold lookback. rewrite H24, H168, Hroll, H24', H168', Hroll'.
  repeat case_decide; try done.
  - by rewrite (cell_prefix _ _ i _ Hcol), (cell_prefix _ _ i (i - 168) Hcol),
      (prior_window_prefix 24 i _ _ Hcol) by lia.
  - by rewrite (cell_prefix _ _ i _ Hcol), (prior_window_prefix 24 i _ _ Hcol) by lia.
  - lia.
Qed.

(** Cleaning a longer frame only adds rows after those of the shorter one. *)
Lemma clean_app l1 l2 : ∃ rest, clean (l1 ++ l2) = clean l1 ++ rest.
Proof.
  rewrite !clean_eq, !drop_duplicates_unfold, drop_duplicates_from_app, fmap_app.
  unfold ffill.
  destruct (ffill_from_app (demand_mwh <$> drop_duplicates_from ∅ l1) None
    (demand_mwh <$> drop_duplicates_from (list_to_set (timestamp <$> l1) ∪ ∅) l2))
    as [last' ->].
  unfold set_demand_mwh. rewrite zip_with_app
    by by rewrite ffill_from_length, length_fmap.
  by eexists.
Qed.

Lemma transform_data_elem df f :
  f ∈ transform_data df ↔ complete f ∧ f ∈ engineer_features (clean df).
Proof. unfold transform_data, dropna. apply list_elem_of_filter. Qed.

(** A complete row sits at position 168 or later and has its three
    look-back values from the rows before it. *)
Lemma complete_row c i f :
  engineer_features c !! i = Some f → complete f →
  ∃ r vals,
    c !! i = Some r ∧ f_timestamp f = timestamp r ∧ f_demand_mwh f = demand_mwh r ∧
    (168 ≤ i)%nat ∧
    lag_demand_24h f = cell (demand_mwh <$> c) (i - 24) ∧
    lag_demand_1_week f = cell (demand_mwh <$> c) (i - 168) ∧
    prior_window 24 i (demand_mwh <$> c) = Some <$> vals ∧ length vals = 24%nat ∧
    rolling_mean_24h f = Some (mean vals).
Proof.
  intros Hf (Hd & H24 & H168 & Hroll).
  apply engineer_features_lookup in Hf as (r & Hr & Hts & Hdem & E24 & E168 & Eroll).
  assert (168 ≤ i)%nat as Hi.
  { destruct (decide (168 ≤ i)%nat) as [|Hno]; [done|].
    rewrite E168 in H168. by destruct H168. }
  rewrite decide_True in E24 by lia. rewrite decide_True in Eroll by lia.
  rewrite decide_True in E168 by done.
  pose proof (omap_id_mapM (prior_window 24 i (demand_mwh <$> c))) as Hwin.
  destruct (mapM id (prior_window 24 i (demand_mwh <$> c))) as [vals|] eqn:Hvals.
  - destruct Hwin as (_ & Hlen & Hwin). exists r, vals.
    assert (length (prior_window 24 i (demand_mwh <$> c)) = 24%nat).
    { unfold prior_window. rewrite length_take, length_drop, length_fmap.
      apply lookup_lt_Some in Hr. lia. }
    repeat split; try done. lia.
  - rewrite Eroll in Hroll. by destruct Hroll.
Qed.

(** ** Trimming *)

Lemma filter_from_index {A} (P : A → Prop) `{!∀ x, Decision (P x)} (l : list A) : ∀ k,
  (∀ i x, l !! i = Some x → (P x ↔ (k ≤ i)%nat)) → filter P l = drop k l.
Proof.
  induction l as [|a l IH]; intros k Hidx.
  - by rewrite drop_nil.
  - destruct k as [|k].
    + rewrite filter_cons_True by (apply (Hidx 0%nat a); [done|lia]).
      cbn [drop]. f_equal. rewrite (IH 0%nat); [done|].
      intros i x Hx. split; [lia|]. intros _. apply (Hidx (S i) x Hx). lia.
    + rewrite filter_cons_False.
      2:{ intros Ha. apply (Hidx 0%nat a) in Ha; [lia|done]. }
      cbn [drop]. apply IH. intros i x Hx.
      rewrite (Hidx (S i) x Hx). lia.
Qed.

Lemma cell_valid {A} (col : list (option A)) i :
  Forall is_Some col → (i < length col)%nat → is_Some (cell col i).
Proof.
  intros Hall Hi. unfold cell.
  destruct (lookup_lt_is_Some_2 col i Hi) as [c Hc]. rewrite Hc.
  exact (Forall_lookup_1 _ _ _ _ Hall Hc).
Qed.

(** In a series without gaps the complete rows are those from 168 on. *)
Lemma complete_iff_warm c i f :
  Forall (λ r, is_Some (demand_mwh r)) c →
  engineer_features c !! i = Some f →
  complete f ↔ (168 ≤ i)%nat.
Proof.
  intros Hvalid Hf. split.
  - intros Hc. by destruct (complete_row _ _ _ Hf Hc) as (? & ? & ? & ? & ? & ? & _).
  - intros Hi.
    apply engineer_features_lookup in Hf as (r & Hr & Hts & Hd & E24 & E168 & Eroll).
    assert (Forall is_Some (demand_mwh <$> c)) as Hcol by by apply Forall_fmap.
    assert (i < length (demand_mwh <$> c))%nat as Hlen.
    { rewrite length_fmap. by eapply lookup_lt_Some. }
    rewrite decide_True in E24 by lia. rewrite decide_True in E168 by lia.
    rewrite decide_True in Eroll by lia.
    unfold complete. rewrite Hd, E24, E168, Eroll.
    split; [exact (Forall_lookup_1 _ _ _ _ Hvalid Hr)|].
    split; [apply cell_valid; [done|lia]|].
    split; [apply cell_valid; [done|lia]|].
    apply fmap_is_Some, mapM_is_Some_2.
    unfold prior_window. by apply Forall_take, Forall_drop.
Qed.

Lemma clean_no_null df :
  Forall (λ r, is_Some (demand_mwh r)) df → clean df = drop_duplicates df.
Proof.
  intros Hvalid. rewrite clean_eq. unfold ffill.
  rewrite ffill_from_no_null; [apply set_demand_mwh_id|].
  apply Forall_fmap. eapply Forall_forall. intros r Hr.
  assert (r ∈ df) as Hin
    by exact (sublist_subseteq _ _ (drop_duplicates_from_sublist df ∅) r Hr).
  by eapply Forall_forall in Hvalid.
Qed.

Lemma transform_data_no_null df :
  Forall (λ r, is_Some (demand_mwh r)) df →
  transform_data df = drop 168 (engineer_features (drop_duplicates df)).
Proof.
  intros Hvalid. unfold transform_data, dropna. rewrite clean_no_null by done.
  apply filter_from_index. intros i f Hf.
  apply (complete_iff_warm (drop_duplicates df)); [|done].
  apply Forall_forall. intros r Hr.
  assert (r ∈ df) as Hin
    by exact (sublist_subseteq _ _ (drop_duplicates_from_sublist df ∅) r Hr).
  by eapply Forall_forall in Hvalid.
Qed.

Lemma drop_duplicates_length df :
  length (drop_duplicates df) = (length df - duplicate_count df)%nat.
Proof.
  pose proof (sublist_length _ _ (drop_duplicates_from_sublist df ∅)) as Hle.
  pose proof (drop_duplicates_from_length df ∅) as Hlen.
  rewrite difference_empty_L in Hlen.
  rewrite drop_duplicates_unfold. unfold duplicate_count. lia.
Qed.

(** A retained row stands at position 168 or later of the cleaned series. *)
Lemma transform_data_short df :
  (length (drop_duplicates df) ≤ 168)%nat → transform_data df = [].
Proof.
  intros Hshort. destruct (transform_data df) as [|f out] eqn:Hout; [done|].
  assert (f ∈ transform_data df) as Hf by (rewrite Hout; left).
  apply transform_data_elem in Hf as [Hc [i Hf]%list_elem_of_lookup].
  destruct (complete_row _ _ _ Hf Hc) as (r & ? & Hr & _ & _ & Hi & _).
  apply lookup_lt_Some in Hr. rewrite clean_length in Hr. lia.
Qed.

Lemma mean_ramp_differs : mean (ramp_demands 144 24) ≠ mean (ramp_demands 120 24).
Proof. intros H. apply (f_equal this) in H. vm_compute in H. discriminate. Qed.

(** ** Ordering *)

Global Instance by_timestamp_total : Total by_timestamp.
Proof. intros a b. unfold by_timestamp. lia. Qed.

Global Instance by_timestamp_trans : Transitive by_timestamp.
Proof. intros a b c. unfold by_timestamp. lia. Qed.

Lemma sort_index_sorted rows : StronglySorted Z.le (timestamp <$> sort_index rows).
Proof.
  apply (StronglySorted_fmap timestamp by_timestamp); [done|].
  apply StronglySorted_merge_sort; apply _.
Qed.

Lemma sort_index_Permutation rows : sort_index rows ≡ₚ rows.
Proof. apply merge_sort_Permutation. Qed.

Lemma StronglySorted_sublist {A} (R : relation A) l1 l2 :
  l1 `sublist_of` l2 → StronglySorted R l2 → StronglySorted R l1.
Proof.
  induction 1 as [|x l1 l2 Hsub IH|x l1 l2 Hsub IH]; intros Hsorted.
  - constructor.
  - apply StronglySorted_inv in Hsorted as [Hl2 Hx]. constructor; [by apply IH|].
    apply Forall_forall. intros y Hy. eapply Forall_forall in Hx; [done|].
    by apply (sublist_subseteq _ _ Hsub).
  - apply StronglySorted_inv in Hsorted as [Hl2 _]. by apply IH.
Qed.

Lemma StronglySorted_le_NoDup (l : list Z) :
  StronglySorted Z.le l → NoDup l → StronglySorted Z.lt l.
Proof.
  induction 1 as [|x l Hsorted IH Hx]; intros Hnd; [constructor|].
  apply NoDup_cons in Hnd as [Hnotin Hnd]. constructor; [by apply IH|].
  apply Forall_forall. intros y Hy. eapply Forall_forall in Hx; [|done].
  assert (x ≠ y) by (intros ->; done). lia.
Qed.

Lemma StronglySorted_lt_NoDup (l : list Z) : StronglySorted Z.lt l → NoDup l.
Proof.
  induction 1 as [|x l Hsorted IH Hx]; constructor; [|done].
  intros Hin. eapply Forall_forall in Hx; [|done]. lia.
Qed.

Lemma transform_data_timestamps_sublist df :
  f_timestamp <$> transform_data df `sublist_of` timestamp <$> drop_duplicates df.
Proof.
  rewrite <- clean_timestamps, <- engineer_features_timestamps.
  unfold transform_data, dropna. apply fmap_sublist, sublist_filter.
Qed.

(** On a frame sorted by timestamp the output is strictly increasing. *)
Lemma transform_data_increasing df :
  StronglySorted Z.le (timestamp <$> df) →
  StronglySorted Z.lt (f_timestamp <$> transform_data df).
Proof.
  intros Hsorted.
  eapply StronglySorted_sublist; [apply transform_data_timestamps_sublist|].
  apply StronglySorted_le_NoDup; [|apply drop_duplicates_from_NoDup].
  eapply StronglySorted_sublist; [|exact Hsorted].
  apply fmap_sublist, drop_duplicates_from_sublist.
Qed.

Lemma duplicate_count_sort_index rows :
  (length (sort_index rows) - duplicate_count (sort_index rows) =
   length rows - duplicate_count rows)%nat.
Proof.
  unfold duplicate_count.
  rewrite (Permutation_length (sort_index_Permutation rows)).
  by rewrite (list_to_set_perm_L (C:=gset Z) _ _
    (fmap_Permutation timestamp _ _ (sort_index_Permutation rows))).
Qed.

(** ** The script *)

(** The three ways a run ends without touching the database, and the
    one way it writes. *)
Lemma main_no_engine w :
  DB_PASSWORD w = None ∨ DB_PASSWORD w = Some EmptyString →
  (main w).2 = Finished ∧ db (main w).1 = db w.
Proof.
  destruct w as [pw d out]. cbn [DB_PASSWORD]. unfold main, get_sql_engine.
  by intros [-> | ->].
Qed.

Lemma main_load_failed w e :
  read_raw_demand (db w) = inl e →
  (main w).2 = Finished ∧ db (main w).1 = db w ∧
  (is_Some (get_sql_engine w).2 →
   last (stdout (main w).1) = Some (Line "Data loading failed.")).
Proof.
  destruct w as [pw d out]. cbn [db]. intros Hread.
  unfold main, get_sql_engine, load_raw_data, print.
  destruct pw as [[|a pw]|]; cbn [DB_PASSWORD db stdout fst snd];
    rewrite ?Hread; cbn [db stdout fst snd];
    repeat split; try done; try (by intros [? [=]]).
  intros _. apply last_snoc.
Qed.

Lemma main_loaded w a pw rows :
  DB_PASSWORD w = Some (String a pw) → read_raw_demand (db w) = inr rows →
  (main w).2 = Finished ∧
  (transform_data (sort_index rows) = [] →
     db (main w).1 = db w ∧
     last (stdout (main w).1) =
       Some (Line "Data transformation failed or resulted in an empty DataFrame.")) ∧
  (transform_data (sort_index rows) ≠ [] →
     to_sql_replace (transform_data (sort_index rows)) (db w) = inr (db (main w).1)).
Proof.
  destruct w as [pw' d out0]. cbn [DB_PASSWORD db]. intros -> Hread.
  assert (reachable d = true) as Hreach.
  { unfold read_raw_demand in Hread. by destruct (reachable d). }
  unfold main, get_sql_engine, load_raw_data, save_features_data, print, prints, set_db.
  cbn [DB_PASSWORD db stdout fst snd]. rewrite Hread.
  cbn [DB_PASSWORD db stdout fst snd].
  destruct (decide (transform_data (sort_index rows) ≠ [])) as [Hne|He]; cbn [fst snd].
  - unfold to_sql_replace. rewrite Hreach. cbn [db stdout fst snd]. done.
  - apply dec_stable in He. split; [done|]. split; [|done].
    intros _. split; [done|]. apply last_snoc.
Qed.

Lemma get_sql_engine_Some w engine :
  (get_sql_engine w).2 = Some engine → ∃ a pw, DB_PASSWORD w = Some (String a pw).
Proof.
  unfold get_sql_engine. destruct (DB_PASSWORD w) as [[|a pw]|]; try done.
  intros _. by exists a, pw.
Qed.

Lemma to_sql_replace_inr df d d' :
  to_sql_replace df d = inr d' →
  features_demand d' = Some df ∧ raw_demand d' = raw_demand d ∧
  reachable d' = reachable d.
Proof.
  unfold to_sql_replace. destruct (reachable d) eqn:Hreach; [|done].
  intros [= <-]. unfold insert_features, create_features, drop_features.
  cbn [features_demand raw_demand reachable fmap option_fmap option_map app].
  done.
Qed.

Lemma load_raw_data_result w :
  (load_raw_data w).2 =
    match read_raw_demand (db w) with
    | inr rows => Some (sort_index rows)
    | inl _ => None
    end.
Proof.
  unfold load_raw_data, print. cbn [db].
  by destruct (read_raw_demand (db w)).
Qed.

Lemma transform_data_few_rows rows :
  (length rows - duplicate_count rows ≤ 168)%nat →
  transform_data (sort_index rows) = [].
Proof.
  intros Hfew. apply transform_data_short.
  rewrite drop_duplicates_length, duplicate_count_sort_index. done.
Qed.

(** * The claims of the specification *)

(** ** Look-back features (C1) *)

Lemma ramp200_first_row : transform_data ramp200 !! 0%nat = Some ramp200_first.
Proof. vm_compute. reflexivity. Qed.

(** C1. Every row [f] that [transform_data] retains sits at a position
    [i >= 168] of the cleaned series; its [lag_demand_24h] is the demand
    of the 24th row before it, its [lag_demand_1_week] the demand of the
    168th row before it, and its [rolling_mean_24h] the mean of the 24
    demands of rows [i-24 .. i-1].  No look-back value depends on row [i]
    or on a later row: any series that agrees with the cleaned one on the
    rows before [i] gives the same three values at [i], and so does any
    raw input that agrees with [df] on the rows before the row. *)
Theorem lookback_uses_prior_rows_only df f :
  f ∈ transform_data df →
  ∃ i r vals,
    clean df !! i = Some r ∧
    f_timestamp f = timestamp r ∧ f_demand_mwh f = demand_mwh r ∧
    (168 ≤ i)%nat ∧
    lag_demand_24h f = cell (demand_mwh <$> clean df) (i - 24) ∧
    lag_demand_1_week f = cell (demand_mwh <$> clean df) (i - 168) ∧
    prior_window 24 i (demand_mwh <$> clean df) = Some <$> vals ∧
    length vals = 24%nat ∧
    rolling_mean_24h f = Some (mean vals) ∧
    (∀ c' f', take i c' = take i (clean df) →
       engineer_features c' !! i = Some f' → lookback f' = lookback f) ∧
    (∀ past rest rest' f', df = past ++ rest → length (clean past) = i →
       engineer_features (clean (past ++ rest')) !! i = Some f' →
       lookback f' = lookback f).
Proof.
  intros [Hcomplete Hf]%transform_data_elem.
  apply list_elem_of_lookup in Hf as [i Hf].
  destruct (complete_row _ _ _ Hf Hcomplete)
    as (r & vals & Hr & Hts & Hd & Hi & H24 & H168 & Hwin & Hlen & Hroll).
  exists i, r, vals. repeat split; try done.
  - intros c' f' Htake Hf'. by eapply lookback_prefix.
  - intros past rest rest' f' -> Hpast Hf'.
    eapply lookback_prefix; [|exact Hf|exact Hf'].
    destruct (clean_app past rest) as [x ->].
    destruct (clean_app past rest') as [x' ->].
    by rewrite !take_app_length'.
Qed.

Lemma lookback_uses_prior_rows_only_witness :
  ramp200_first ∈ transform_data ramp200 ∧
  ∃ i r vals,
    clean ramp200 !! i = Some r ∧
    f_timestamp ramp200_first = timestamp r ∧
    f_demand_mwh ramp200_first = demand_mwh r ∧
    (168 ≤ i)%nat ∧
    lag_demand_24h ramp200_first = cell (demand_mwh <$> clean ramp200) (i - 24) ∧
    lag_demand_1_week ramp200_first = cell (demand_mwh <$> clean ramp200) (i - 168) ∧
    prior_window 24 i (demand_mwh <$> clean ramp200) = Some <$> vals ∧
    length vals = 24%nat ∧
    rolling_mean_24h ramp200_first = Some (mean vals) ∧
    (∀ c' f', take i c' = take i (clean ramp200) →
       engineer_features c' !! i = Some f' → lookback f' = lookback ramp200_first) ∧
    (∀ past rest rest' f', ramp200 = past ++ rest → length (clean past) = i →
       engineer_features (clean (past ++ rest')) !! i = Some f' →
       lookback f' = lookback ramp200_first).
Proof.
  assert (ramp200_first ∈ transform_data ramp200) as Hin.
  { apply list_elem_of_lookup. exists 0%nat. vm_compute. reflexivity. }
  split; [exact Hin|].
  exact (lookback_uses_prior_rows_only ramp200 ramp200_first Hin).
Defined.

(** ** Deduplication (C5) *)

(** C5. For every input frame (sorted or not), and for each timestamp,
    [drop_duplicates] keeps exactly the first row that carries it and
    discards every later one, without reordering rows; of two rows with
    the same timestamp only the first is retained, whatever their
    demands. *)
Theorem drop_duplicates_keeps_first :
  (∀ df ts, rows_at ts (drop_duplicates df) = option_list (head (rows_at ts df))) ∧
  (∀ df, drop_duplicates df `sublist_of` df) ∧
  (∀ ts d1 d2, drop_duplicates [mkRaw ts d1; mkRaw ts d2] = [mkRaw ts d1]).
Proof.
  split; [|split].
  - intros df ts. rewrite drop_duplicates_unfold, rows_at_drop_duplicates_from.
    by rewrite decide_False by set_solver.
  - intros df. apply drop_duplicates_from_sublist.
  - intros ts d1 d2. rewrite drop_duplicates_unfold, !drop_duplicates_from_cons.
    cbn [timestamp]. rewrite decide_False by set_solver.
    by rewrite decide_True by set_solver.
Qed.

(** ** Forward fill (C6) *)

(** C6. After deduplication the cleaner keeps every timestamp and every
    valid demand, replaces a missing demand by the nearest valid demand
    of an earlier row, and leaves it missing when no earlier row has a
    valid demand; when the first five rows miss their demand and the
    sixth has 500, the first five stay missing and the sixth keeps 500,
    whatever rows follow. *)
Theorem clean_forward_fills :
  (∀ df,
     let raw := demand_mwh <$> drop_duplicates df in
     let filled := demand_mwh <$> clean df in
     timestamp <$> clean df = timestamp <$> drop_duplicates df ∧
     (∀ i v, raw !! i = Some (Some v) → filled !! i = Some (Some v)) ∧
     (∀ i j v, (j < i)%nat → raw !! j = Some (Some v) →
        (∀ k, (j < k ≤ i)%nat → raw !! k = Some None) →
        filled !! i = Some (Some v)) ∧
     (∀ i, (∀ k, (k ≤ i)%nat → raw !! k = Some None) → filled !! i = Some None)) ∧
  (∀ rest,
     take 6 (demand_mwh <$> clean (leading_gap 6 ++ rest)) =
       [None; None; None; None; None; Some 500]).
Proof.
  split.
  - intros df raw filled. subst raw filled. rewrite clean_demand. unfold ffill.
    split; [apply clean_timestamps|]. split; [|split].
    + intros i v. apply ffill_from_valid.
    + intros i j v. apply ffill_from_carry.
    + intros i. apply ffill_from_leading.
  - intros rest. rewrite clean_demand, drop_duplicates_unfold, drop_duplicates_from_app.
    rewrite fmap_app. unfold ffill.
    destruct (ffill_from_app (demand_mwh <$> drop_duplicates_from ∅ (leading_gap 6)) None
      (demand_mwh <$> drop_duplicates_from
         (list_to_set (timestamp <$> leading_gap 6) ∪ ∅) rest)) as [last' ->].
    rewrite take_app_length'; vm_compute; reflexivity.
Qed.

Lemma clean_forward_fills_witness :
  (demand_mwh <$> clean gappy) !! 5%nat = Some (Some 500) ∧
  (demand_mwh <$> clean gappy) !! 7%nat = Some (Some 500) ∧
  (demand_mwh <$> clean gappy) !! 4%nat = Some None.
Proof.
  destruct (proj1 clean_forward_fills gappy) as (_ & Hvalid & Hcarry & Hlead).
  split; [|split].
  - apply Hvalid. vm_compute. reflexivity.
  - apply (Hcarry 7%nat 5%nat 500).
    + lia.
    + vm_compute. reflexivity.
    + intros k Hk. assert (k = 6 ∨ k = 7)%nat as [-> | ->] by lia;
        vm_compute; reflexivity.
  - apply Hlead. intros k Hk.
    assert (k = 0 ∨ k = 1 ∨ k = 2 ∨ k = 3 ∨ k = 4)%nat
      as [-> | [-> | [-> | [-> | ->]]]] by lia; vm_compute; reflexivity.
Defined.

(** ** Idempotence of the cleaner (C7) *)

(** C7. A series without duplicate timestamps and without missing
    demand is a fixed point of the cleaner: cleaning it, once or twice,
    returns it unchanged. *)
Theorem clean_fixed_point df :
  NoDup (timestamp <$> df) → Forall (λ r, is_Some (demand_mwh r)) df →
  clean df = df ∧ clean (clean df) = df.
Proof.
  intros Hnd Hvalid. assert (clean df = df) as Heq by by apply clean_fixed.
  by rewrite !Heq.
Qed.

Lemma clean_fixed_point_witness :
  clean (hourly 0 (λ i, Some (Z.of_nat i)) 5) = hourly 0 (λ i, Some (Z.of_nat i)) 5 ∧
  clean (clean (hourly 0 (λ i, Some (Z.of_nat i)) 5)) =
    hourly 0 (λ i, Some (Z.of_nat i)) 5.
Proof.
  apply (clean_fixed_point (hourly 0 (λ i, Some (Z.of_nat i)) 5)).
  - apply (bool_decide_unpack _). vm_compute. exact I.
  - repeat constructor; by eexists.
Defined.

(** ** Warm-up trimming (C2) *)

(** C2, the scenario as the specification has it: the first output row
    would carry the mean of the demands [1120 .. 1143].  That row carries
    the mean of [1144 .. 1167], the 24 rows before row 168. *)
Lemma ramp200_rolling_mean_not_as_stated :
  ¬ (length (transform_data ramp200) = 32%nat ∧
     ∃ f, transform_data ramp200 !! 0%nat = Some f ∧
          f_timestamp f = 473520 ∧
          lag_demand_24h f = Some (1000 + 144) ∧
          lag_demand_1_week f = Some (1000 + 0) ∧
          rolling_mean_24h f = Some (mean (ramp_demands 120 24))).
Proof.
  intros (_ & f & Hf & _ & _ & _ & Hroll).
  rewrite ramp200_first_row in Hf. injection Hf as <-.
  cbn [rolling_mean_24h ramp200_first] in Hroll. injection Hroll as Hroll.
  by apply mean_ramp_differs.
Qed.

(** C2, amended.  For every input of [L] rows, [D] of which repeat an
    earlier timestamp, and no missing demand, the output has
    [L - D - 168] rows when [L - D > 168].  For the 200 hourly rows from
    2024-01-01T00:00Z with demand [1000 + i], the output is the 32 rows
    from index 168 (2024-01-08T00:00Z) on, and its first row has
    [lag_demand_24h = 1144], [lag_demand_1_week = 1000] and
    [rolling_mean_24h] the mean of [1144 .. 1167]. *)
Theorem warm_up_row_count :
  (∀ df, Forall (λ r, is_Some (demand_mwh r)) df →
     (168 < length df - duplicate_count df)%nat →
     length (transform_data df) = (length df - duplicate_count df - 168)%nat) ∧
  (length ramp200 = 200%nat ∧ duplicate_count ramp200 = 0%nat ∧
   length (transform_data ramp200) = 32%nat ∧
   f_timestamp <$> transform_data ramp200 = timestamp <$> drop 168 ramp200 ∧
   ∃ f, transform_data ramp200 !! 0%nat = Some f ∧
        f_timestamp f = 473520 ∧
        (year f, month f, day_of_year f, hour f) = (2024, 1, 8, 0) ∧
        lag_demand_24h f = Some (1000 + 144) ∧
        lag_demand_1_week f = Some (1000 + 0) ∧
        rolling_mean_24h f = Some (mean (ramp_demands 144 24))).
Proof.
  split.
  - intros df Hvalid Hlong. rewrite transform_data_no_null by done.
    by rewrite length_drop, engineer_features_length, drop_duplicates_length.
  - split; [by vm_compute|]. split; [by vm_compute|].
    split; [by vm_compute|]. split; [by vm_compute|].
    exists ramp200_first. split; [apply ramp200_first_row|]. done.
Qed.

Lemma warm_up_row_count_witness :
  length ramp200_dup = 201%nat ∧ duplicate_count ramp200_dup = 1%nat ∧
  length (transform_data ramp200_dup) =
    (length ramp200_dup - duplicate_count ramp200_dup - 168)%nat.
Proof.
  split; [by vm_compute|]. split; [by vm_compute|].
  apply (proj1 warm_up_row_count ramp200_dup).
  - apply (bool_decide_unpack _). vm_compute. exact I.
  - apply (bool_decide_unpack _). vm_compute. exact I.
Defined.

(** ** Completeness of the final rows (C10) *)

(** C10. [transform_data] keeps a feature row exactly when none of its
    columns is missing, so every retained row has its demand and its
    three look-back values; a row whose demand is still missing after
    the forward fill is therefore not in the output. *)
Theorem final_rows_complete df :
  (∀ f, f ∈ transform_data df ↔ complete f ∧ f ∈ engineer_features (clean df)) ∧
  (∀ f, f ∈ transform_data df →
     ∃ d l24 l168 m,
       f_demand_mwh f = Some d ∧ lag_demand_24h f = Some l24 ∧
       lag_demand_1_week f = Some l168 ∧ rolling_mean_24h f = Some m) ∧
  (∀ r, r ∈ clean df → demand_mwh r = None →
     timestamp r ∉ f_timestamp <$> transform_data df).
Proof.
  split; [apply transform_data_elem|]. split.
  - intros f [([d Hd] & [l24 H24] & [l168 H168] & [m Hm]) _]%transform_data_elem.
    by exists d, l24, l168, m.
  - intros r Hr Hnull (f & Hts & Hf)%list_elem_of_fmap.
    apply transform_data_elem in Hf as [Hc [i Hf]%list_elem_of_lookup].
    destruct (complete_row _ _ _ Hf Hc) as (r' & _ & Hr' & Hts' & Hd & _).
    apply list_elem_of_lookup in Hr as [j Hr].
    assert (i = j) as ->.
    { apply (NoDup_lookup (timestamp <$> clean df) i j (timestamp r)).
      - apply clean_NoDup.
      - rewrite list_lookup_fmap, Hr'. cbn. congruence.
      - by rewrite list_lookup_fmap, Hr. }
    destruct Hc as [[d Hsome] _]. congruence.
Qed.

Lemma final_rows_complete_witness :
  (∃ d l24 l168 m,
     f_demand_mwh ramp200_first = Some d ∧ lag_demand_24h ramp200_first = Some l24 ∧
     lag_demand_1_week ramp200_first = Some l168 ∧
     rolling_mean_24h ramp200_first = Some m) ∧
  length (transform_data (leading_gap 180)) = 7%nat ∧
  timestamp (mkRaw 4 None) ∉ f_timestamp <$> transform_data (leading_gap 180).
Proof.
  split; [|split].
  - apply (proj1 (proj2 (final_rows_complete ramp200))).
    apply list_elem_of_lookup. exists 0%nat. vm_compute. reflexivity.
  - by vm_compute.
  - apply (proj2 (proj2 (final_rows_complete (leading_gap 180)))).
    + apply list_elem_of_lookup. exists 4%nat. vm_compute. reflexivity.
    + reflexivity.
Defined.

(** ** Ordering of the output (C8) *)

(** C8. Whatever the order of the rows in raw storage, the frame that
    [transform_data] returns for the loaded rows is strictly increasing
    by timestamp, hence without duplicate timestamps; a run of the
    script either leaves the stored feature table as it was or stores
    such a table. *)
Theorem output_strictly_increasing :
  (∀ rows,
     strictly_increasing (f_timestamp <$> transform_data (sort_index rows)) ∧
     NoDup (f_timestamp <$> transform_data (sort_index rows))) ∧
  (∀ w,
     features_demand (db (main w).1) = features_demand (db w) ∨
     ∃ table,
       features_demand (db (main w).1) = Some table ∧
       strictly_increasing (f_timestamp <$> table) ∧
       NoDup (f_timestamp <$> table)).
Proof.
  assert (∀ rows,
     strictly_increasing (f_timestamp <$> transform_data (sort_index rows)) ∧
     NoDup (f_timestamp <$> transform_data (sort_index rows))) as Hrows.
  { intros rows.
    pose proof (transform_data_increasing _ (sort_index_sorted rows)) as Hinc.
    split; [exact Hinc|]. by apply StronglySorted_lt_NoDup. }
  split; [exact Hrows|]. intros w.
  destruct (DB_PASSWORD w) as [[|a pw]|] eqn:Hpw.
  - left. destruct (main_no_engine w) as [_ ->]; [by right|done].
  - destruct (read_raw_demand (db w)) as [e|rows] eqn:Hread.
    + left. by destruct (main_load_failed w e Hread) as (_ & -> & _).
    + destruct (main_loaded w a pw rows Hpw Hread) as (_ & Hempty & Hsave).
      destruct (decide (transform_data (sort_index rows) = [])) as [He|Hne].
      * left. by destruct (Hempty He) as [-> _].
      * right. exists (transform_data (sort_index rows)).
        destruct (to_sql_replace_inr _ _ _ (Hsave Hne)) as (Hfeat & _).
        split; [done|]. apply Hrows.
  - left. destruct (main_no_engine w) as [_ ->]; [by left|done].
Qed.

(** ** Replace semantics (C9) *)

(** C9. When the database answers, [save_features_data] leaves in
    [features_demand] exactly the rows of the new frame, whatever the
    table held before, and does not touch [raw_demand]. *)
Theorem save_replaces_table df w :
  reachable (db w) = true →
  features_demand (db (save_features_data df w)) = Some df ∧
  raw_demand (db (save_features_data df w)) = raw_demand (db w).
Proof.
  intros Hreach. unfold save_features_data, print, set_db. cbn [db].
  destruct (to_sql_replace df (db w)) as [e|d'] eqn:Hsql.
  - unfold to_sql_replace in Hsql. by rewrite Hreach in Hsql.
  - cbn [db]. by destruct (to_sql_replace_inr _ _ _ Hsql) as (? & ? & _).
Qed.

Lemma save_replaces_table_witness :
  features_demand
    (db (save_features_data [ramp200_first]
           (world_with ramp200 (Some [ramp200_first; ramp200_first; ramp200_first]))))
    = Some [ramp200_first] ∧
  raw_demand
    (db (save_features_data [ramp200_first]
           (world_with ramp200 (Some [ramp200_first; ramp200_first; ramp200_first]))))
    = Some ramp200.
Proof.
  apply (save_replaces_table [ramp200_first]
    (world_with ramp200 (Some [ramp200_first; ramp200_first; ramp200_first]))).
  reflexivity.
Defined.

(** ** The empty result (C3) *)

(** C3, as the specification has it: a run whose transformation retains
    no row fails with an error surfaced to the caller.  The run on three
    raw rows retains none, and it ends normally, with no exception. *)
Lemma short_series_run_finishes :
  transform_data (sort_index short_series) = [] ∧
  (main (world_with short_series (Some [ramp200_first]))).2 = Finished ∧
  ¬ ∃ e, (main (world_with short_series (Some [ramp200_first]))).2 = Uncaught e.
Proof.
  split; [by vm_compute|]. split; [by vm_compute|].
  intros [e He]. vm_compute in He. discriminate.
Qed.

(** C3, amended.  When the engine is obtained, the raw rows are read and
    the transformation retains no row, the script prints "Data
    transformation failed or resulted in an empty DataFrame." as its
    last line, raises nothing (it runs to its end) and leaves the
    database, with the stored feature table, as it was.  This is the
    case whenever at most 168 rows remain after deduplication. *)
Theorem empty_result_reported_not_written :
  (∀ w engine rows,
     (get_sql_engine w).2 = Some engine →
     read_raw_demand (db w) = inr rows →
     transform_data (sort_index rows) = [] →
     (main w).2 = Finished ∧
     db (main w).1 = db w ∧
     last (stdout (main w).1) =
       Some (Line "Data transformation failed or resulted in an empty DataFrame.")) ∧
  (∀ rows, (length rows - duplicate_count rows ≤ 168)%nat →
     transform_data (sort_index rows) = []).
Proof.
  split; [|apply transform_data_few_rows].
  intros w engine rows (a & pw & Hpw)%get_sql_engine_Some Hread Hempty.
  destruct (main_loaded w a pw rows Hpw Hread) as (Hexit & Hno & _).
  by destruct (Hno Hempty).
Qed.

Lemma empty_result_reported_not_written_witness :
  (main (world_with short_series (Some [ramp200_first]))).2 = Finished ∧
  db (main (world_with short_series (Some [ramp200_first]))).1 =
    db (world_with short_series (Some [ramp200_first])) ∧
  last (stdout (main (world_with short_series (Some [ramp200_first]))).1) =
    Some (Line "Data transformation failed or resulted in an empty DataFrame.").
Proof.
  apply (proj1 empty_result_reported_not_written
           (world_with short_series (Some [ramp200_first]))
           (engine_for "secret") short_series).
  - reflexivity.
  - reflexivity.
  - apply (proj2 empty_result_reported_not_written short_series).
    apply (bool_decide_unpack _). vm_compute. exact I.
Defined.

(** ** The unavailable raw store (C4) *)

(** C4, as the specification has it: the loader fails when the raw
    store is empty.  On a raw table without rows it returns an empty
    frame and reports success. *)
Lemma empty_store_loads :
  (load_raw_data (world_with [] None)).2 = Some [] ∧
  (load_raw_data (world_with [] None)).2 ≠ None ∧
  Line "Successfully loaded 0 records." ∈ stdout (load_raw_data (world_with [] None)).1.
Proof.
  split; [by vm_compute|]. split; [by vm_compute|].
  apply list_elem_of_lookup. exists 1%nat. vm_compute. reflexivity.
Qed.

(** C4, amended.  When the raw store cannot be read (the server does not
    answer, or the table is missing), [load_raw_data] returns [None],
    the script prints "Data loading failed." as its last line, runs to
    its end and writes nothing.  When the raw table exists but has no
    row, [load_raw_data] succeeds with an empty frame; the run writes
    nothing either. *)
Theorem raw_store_unavailable :
  (∀ w engine,
     (get_sql_engine w).2 = Some engine →
     reachable (db w) = false ∨ raw_demand (db w) = None →
     (load_raw_data w).2 = None ∧
     (main w).2 = Finished ∧
     db (main w).1 = db w ∧
     last (stdout (main w).1) = Some (Line "Data loading failed.")) ∧
  (∀ w engine,
     (get_sql_engine w).2 = Some engine →
     reachable (db w) = true → raw_demand (db w) = Some [] →
     (load_raw_data w).2 = Some [] ∧
     db (main w).1 = db w).
Proof.
  split.
  - intros w engine Hengine Hdown.
    assert (∃ e, read_raw_demand (db w) = inl e) as [e Hread].
    { unfold read_raw_demand. destruct Hdown as [-> | Hmissing]; [by eexists|].
      rewrite Hmissing. destruct (reachable (db w)); by eexists. }
    destruct (main_load_failed w e Hread) as (Hexit & Hdb & Hlast).
    rewrite load_raw_data_result, Hread. repeat split; try done.
    apply Hlast. by rewrite Hengine.
  - intros w engine (a & pw & Hpw)%get_sql_engine_Some Hreach Hraw.
    assert (read_raw_demand (db w) = inr []) as Hread.
    { unfold read_raw_demand. by rewrite Hreach, Hraw. }
    rewrite load_raw_data_result, Hread. split; [done|].
    destruct (main_loaded w a pw [] Hpw Hread) as (_ & Hempty & _).
    by destruct (Hempty eq_refl).
Qed.

Lemma raw_store_unavailable_witness :
  ((load_raw_data (world_down ramp200 (Some [ramp200_first]))).2 = None ∧
   (main (world_down ramp200 (Some [ramp200_first]))).2 = Finished ∧
   db (main (world_down ramp200 (Some [ramp200_first]))).1 =
     db (world_down ramp200 (Some [ramp200_first])) ∧
   last (stdout (main (world_down ramp200 (Some [ramp200_first]))).1) =
     Some (Line "Data loading failed.")) ∧
  ((load_raw_data (world_with [] (Some [ramp200_first]))).2 = Some [] ∧
   db (main (world_with [] (Some [ramp200_first]))).1 =
     db (world_with [] (Some [ramp200_first]))).
Proof.
  split.
  - apply (proj1 raw_store_unavailable (world_down ramp200 (Some [ramp200_first]))
             (engine_for "secret")).
    + reflexivity.
    + left. reflexivity.
  - apply (proj2 raw_store_unavailable (world_with [] (Some [ramp200_first]))
             (engine_for "secret")); reflexivity.
Defined.

(** * Further properties of the code *)

(** ** The cleaning step on arbitrary input *)

Lemma ffill_from_idemp col : ∀ last,
  ffill_from last (ffill_from last col) = ffill_from last col.
Proof.
  induction col as [|[v|] col IH]; intros last; [done|..].
  - cbn. by rewrite IH.
  - cbn [ffill_from]. destruct last as [v|]; cbn [ffill_from]; by rewrite IH.
Qed.

Lemma drop_duplicates_NoDup_id df :
  NoDup (timestamp <$> df) → drop_duplicates df = df.
Proof.
  intros Hnd. rewrite drop_duplicates_unfold.
  apply drop_duplicates_from_id; [done|set_solver].
Qed.

Lemma drop_duplicates_idemp df : drop_duplicates (drop_duplicates df) = drop_duplicates df.
Proof. apply drop_duplicates_NoDup_id, drop_duplicates_from_NoDup. Qed.

Lemma clean_idemp df : clean (clean df) = clean df.
Proof.
  rewrite (clean_eq (clean df)).
  rewrite (drop_duplicates_NoDup_id (clean df)) by apply clean_NoDup.
  rewrite clean_demand. unfold ffill. rewrite ffill_from_idemp.
  fold (ffill (demand_mwh <$> drop_duplicates df)).
  rewrite <- clean_demand. apply set_demand_mwh_id.
Qed.

Lemma clean_drop_duplicates df : clean (drop_duplicates df) = clean df.
Proof. by rewrite !clean_eq, drop_duplicates_idemp. Qed.

(** X1. The cleaning step is idempotent on every input, with or
    without duplicate timestamps and leading gaps, and rows dropped as
    duplicates have no influence: the transformation of the cleaned or
    of the deduplicated frame is the transformation of the frame. *)
Theorem clean_idempotent_transform_stable df :
  clean (clean df) = clean df ∧
  clean (drop_duplicates df) = clean df ∧
  transform_data (clean df) = transform_data df ∧
  transform_data (drop_duplicates df) = transform_data df.
Proof.
  split; [apply clean_idemp|]. split; [apply clean_drop_duplicates|].
  unfold transform_data. by rewrite clean_idemp, clean_drop_duplicates.
Qed.

(** ** Leading gaps *)

Lemma ffill_from_Some_valid col : ∀ v, Forall is_Some (ffill_from (Some v) col).
Proof.
  induction col as [|[u|] col IH]; intros v; cbn [ffill_from]; constructor;
    by eauto.
Qed.

Lemma cell_cons {A} (c : option A) col i : cell (c :: col) (S i) = cell col i.
Proof. reflexivity. Qed.

(** After the forward fill the missing cells are those of the leading gap. *)
Lemma ffill_cell_valid col : ∀ i,
  (i < length col)%nat →
  is_Some (cell (ffill col) i) ↔ (leading_missing col ≤ i)%nat.
Proof.
  unfold ffill. induction col as [|[v|] col IH]; intros i Hi.
  - simpl in Hi. lia.
  - cbn [ffill_from leading_missing]. split; [lia|]. intros _.
    apply cell_valid.
    + constructor; [by eexists|apply ffill_from_Some_valid].
    + cbn [length]. by rewrite ffill_from_length.
  - cbn [ffill_from leading_missing]. destruct i as [|i].
    + split; [by intros [? [=]]|lia].
    + rewrite cell_cons, IH by (simpl in Hi; lia). lia.
Qed.

Lemma leading_missing_ffill col : leading_missing (ffill col) = leading_missing col.
Proof.
  unfold ffill. induction col as [|[v|] col IH]; [done|done|].
  cbn [ffill_from leading_missing]. by rewrite IH.
Qed.

Lemma leading_missing_le {A} (col : list (option A)) :
  (leading_missing col ≤ length col)%nat.
Proof. induction col as [|[a|] col IH]; cbn [leading_missing length]; lia. Qed.

(** A feature row is complete exactly from [168] rows after the leading gap. *)
Lemma complete_iff_after_gap df i f :
  engineer_features (clean df) !! i = Some f →
  complete f ↔ (leading_missing (demand_mwh <$> drop_duplicates df) + 168 ≤ i)%nat.
Proof.
  intros Hf.
  set (raw := demand_mwh <$> drop_duplicates df).
  assert (∀ k, (k < length raw)%nat →
    is_Some (cell (demand_mwh <$> clean df) k) ↔ (leading_missing raw ≤ k)%nat)
    as Hcell.
  { intros k Hk. rewrite clean_demand. by apply ffill_cell_valid. }
  assert (length raw = length (clean df)) as Hlen
    by (unfold raw; by rewrite length_fmap, clean_length).
  split.
  - intros Hc.
    destruct (complete_row _ _ _ Hf Hc)
      as (r & vals & Hr & _ & _ & Hi & _ & H168 & _).
    destruct Hc as (_ & _ & Hsome & _). rewrite H168 in Hsome.
    apply lookup_lt_Some in Hr.
    apply Hcell in Hsome; lia.
  - intros Hi.
    apply engineer_features_lookup in Hf as (r & Hr & Hts & Hd & E24 & E168 & Eroll).
    pose proof (lookup_lt_Some _ _ _ Hr) as Hlt.
    rewrite decide_True in E24 by lia. rewrite decide_True in E168 by lia.
    rewrite decide_True in Eroll by lia.
    unfold complete. rewrite Hd, E24, E168, Eroll.
    assert (demand_mwh r = cell (demand_mwh <$> clean df) i) as ->.
    { unfold cell. by rewrite list_lookup_fmap, Hr. }
    split; [apply Hcell; lia|]. split; [apply Hcell; lia|].
    split; [apply Hcell; lia|].
    apply fmap_is_Some, mapM_is_Some_2, Forall_lookup.
    intros j c Hj. unfold prior_window in Hj.
    apply lookup_take_Some in Hj as [Hj Hj24]. rewrite lookup_drop in Hj.
    assert (c = cell (demand_mwh <$> clean df) (i - 24 + j)) as ->
      by (unfold cell; by rewrite Hj).
    apply Hcell; lia.
Qed.

(** X2. With a leading gap of [g] rows (after deduplication) the
    transformation retains exactly the feature rows from position
    [g + 168] on: the gap delays the first output row by its own length
    and no further, and gaps inside the series cost no row. *)
Theorem leading_gap_delays_output df :
  transform_data df =
    drop (leading_missing (demand_mwh <$> drop_duplicates df) + 168)
         (engineer_features (clean df)) ∧
  length (transform_data df) =
    (length df - duplicate_count df
     - leading_missing (demand_mwh <$> drop_duplicates df) - 168)%nat.
Proof.
  assert (transform_data df =
    drop (leading_missing (demand_mwh <$> drop_duplicates df) + 168)
         (engineer_features (clean df))) as Heq.
  { unfold transform_data, dropna. apply filter_from_index.
    intros i f. apply complete_iff_after_gap. }
  split; [exact Heq|].
  rewrite Heq, length_drop, engineer_features_length, clean_length,
    drop_duplicates_length. lia.
Qed.

(** ** Where the output values come from *)

Lemma ffill_from_elem col : ∀ last c,
  c ∈ ffill_from last col → c = last ∨ c ∈ col.
Proof.
  induction col as [|[v|] col IH]; intros last c; cbn [ffill_from].
  - by intros ?%elem_of_nil.
  - intros [->|Hc]%elem_of_cons; [right; left|].
    destruct (IH _ _ Hc) as [->|?]; right; [left|by right].
  - intros [->|Hc]%elem_of_cons; [by left|].
    destruct (IH _ _ Hc) as [->|?]; [by left|right; by right].
Qed.

Lemma cell_Some_elem {A} (col : list (option A)) i v :
  cell col i = Some v → Some v ∈ col.
Proof.
  unfold cell. destruct (col !! i) as [c|] eqn:Hc; [|done].
  cbn. intros ->. by eapply list_elem_of_lookup_2.
Qed.

(** A valid cell of the cleaned demand column is a demand of the input. *)
Lemma clean_demand_from_input df i v :
  cell (demand_mwh <$> clean df) i = Some v → v ∈ demands df.
Proof.
  intros Hcell%cell_Some_elem. rewrite clean_demand in Hcell.
  apply ffill_from_elem in Hcell as [?|Hcell]; [done|].
  apply list_elem_of_fmap in Hcell as (r & Hv & Hr).
  unfold demands. apply list_elem_of_omap. exists r. split; [|done].
  exact (sublist_subseteq _ _ (drop_duplicates_from_sublist df ∅) r Hr).
Qed.

(** X3. The transformation invents nothing: the timestamp of every
    output row is a timestamp of the input, and its demand and its two
    lags are demand values that occur in the input. *)
Theorem output_values_from_input df f :
  f ∈ transform_data df →
  f_timestamp f ∈ timestamp <$> df ∧
  ∃ d l24 l168,
    f_demand_mwh f = Some d ∧ lag_demand_24h f = Some l24 ∧
    lag_demand_1_week f = Some l168 ∧
    d ∈ demands df ∧ l24 ∈ demands df ∧ l168 ∈ demands df.
Proof.
  intros Hf. split.
  - assert (f_timestamp f ∈ f_timestamp <$> transform_data df) as Hts
      by by apply list_elem_of_fmap_2.
    apply (sublist_subseteq _ _ (transform_data_timestamps_sublist df)) in Hts.
    apply list_elem_of_fmap in Hts as (r & -> & Hr). apply list_elem_of_fmap_2.
    exact (sublist_subseteq _ _ (drop_duplicates_from_sublist df ∅) r Hr).
  - apply transform_data_elem in Hf as [Hc [i Hf]%list_elem_of_lookup].
    destruct (complete_row _ _ _ Hf Hc)
      as (r & vals & Hr & _ & Hd & _ & H24 & H168 & _).
    destruct Hc as ([d Hsd] & [l24 Hs24] & [l168 Hs168] & _).
    exists d, l24, l168. repeat split; try done.
    + apply (clean_demand_from_input df i). unfold cell.
      rewrite list_lookup_fmap, Hr. cbn. congruence.
    + apply (clean_demand_from_input df (i - 24)). congruence.
    + apply (clean_demand_from_input df (i - 168)). congruence.
Qed.

Lemma output_values_from_input_witness :
  f_timestamp ramp200_first ∈ timestamp <$> ramp200 ∧
  ∃ d l24 l168,
    f_demand_mwh ramp200_first = Some d ∧ lag_demand_24h ramp200_first = Some l24 ∧
    lag_demand_1_week ramp200_first = Some l168 ∧
    d ∈ demands ramp200 ∧ l24 ∈ demands ramp200 ∧ l168 ∈ demands ramp200.
Proof.
  apply (output_values_from_input ramp200 ramp200_first).
  apply list_elem_of_lookup. exists 0%nat. vm_compute. reflexivity.
Defined.

(** ** Appending newer rows *)

Lemma engineer_features_app c rest :
  ∃ more, engineer_features (c ++ rest) = engineer_features c ++ more.
Proof.
  exists (drop (length c) (engineer_features (c ++ rest))).
  rewrite <- (take_drop (length c) (engineer_features (c ++ rest))) at 1.
  f_equal. apply list_eq. intros i.
  destruct (decide (i < length c)%nat) as [Hi|Hi].
  2:{ rewrite lookup_take_ge by lia.
      symmetry. apply lookup_ge_None. rewrite engineer_features_length. lia. }
  rewrite lookup_take_lt by done.
  destruct (lookup_lt_is_Some_2 c i Hi) as [r Hr].
  assert (take i (demand_mwh <$> c ++ rest) = take i (demand_mwh <$> c)) as Hcol.
  { rewrite fmap_app, take_app_le; [done|]. rewrite length_fmap. lia. }
  assert (i < length (demand_mwh <$> c ++ rest))%nat as Hlen'.
  { rewrite length_fmap, length_app. lia. }
  assert (i < length (demand_mwh <$> c))%nat as Hlen by by rewrite length_fmap.
  unfold engineer_features. rewrite !list_lookup_imap, lookup_app_l, Hr by done.
  cbn [fmap option_fmap option_map]. f_equal.
  rewrite !cell_shift, !cell_rolling_mean_24h by done.
  f_equal.
  - case_decide; [|done]. apply (cell_prefix _ _ i); [done|lia].
  - case_decide; [|done]. apply (cell_prefix _ _ i); [done|lia].
  - case_decide; [|done]. by rewrite (prior_window_prefix 24 i _ _ Hcol) by lia.
Qed.

(** X4. Rows appended to the input leave the rows already produced as
    they are: the output for [past] opens the output for
    [past ++ newer]. *)
Theorem transform_data_append_stable past newer :
  transform_data past `prefix_of` transform_data (past ++ newer).
Proof.
  unfold transform_data, dropna.
  destruct (clean_app past newer) as [rest ->].
  destruct (engineer_features_app (clean past) rest) as [more ->].
  rewrite filter_app. by eexists.
Qed.

(** ** Calendar columns *)

Lemma calendar_ranges t :
  0 ≤ Calendar.hour t ≤ 23 ∧ 0 ≤ Calendar.day_of_week t ≤ 6 ∧
  1 ≤ Calendar.month t ≤ 12 ∧ 1 ≤ Calendar.day_of_year t ≤ 366.
Proof.
  unfold Calendar.day_of_year. destruct (Calendar.is_leap (Calendar.year t)).
  all: unfold Calendar.hour, Calendar.day_of_week, Calendar.month,
    Calendar.month_from_march, Calendar.day_of_march_year, Calendar.year_of_era,
    Calendar.day_of_era, Calendar.era, Calendar.days; cbv zeta.
  all: repeat case_decide; Z.div_mod_to_equations; lia.
Qed.

Lemma calendar_period t :
  Calendar.hour (t - 24) = Calendar.hour t ∧
  Calendar.hour (t - 168) = Calendar.hour t ∧
  Calendar.day_of_week (t - 168) = Calendar.day_of_week t.
Proof.
  unfold Calendar.hour, Calendar.day_of_week, Calendar.days.
  repeat split; Z.div_mod_to_equations; lia.
Qed.

Lemma engineer_features_calendar c i f :
  engineer_features c !! i = Some f →
  calendar f =
    (Calendar.hour (f_timestamp f), Calendar.day_of_week (f_timestamp f),
     Calendar.day_of_year (f_timestamp f), Calendar.month (f_timestamp f),
     Calendar.year (f_timestamp f)).
Proof.
  unfold engineer_features. rewrite list_lookup_imap.
  destruct (c !! i) as [r|]; [|done]. by intros [= <-].
Qed.

(** X5. The calendar columns of an output row are those of its own
    timestamp, and they lie in their ranges: hour 0..23, day of week
    0..6, month 1..12, day of year 1..366. *)
Theorem calendar_columns_in_range df f :
  f ∈ transform_data df →
  calendar f =
    (Calendar.hour (f_timestamp f), Calendar.day_of_week (f_timestamp f),
     Calendar.day_of_year (f_timestamp f), Calendar.month (f_timestamp f),
     Calendar.year (f_timestamp f)) ∧
  0 ≤ hour f ≤ 23 ∧ 0 ≤ day_of_week f ≤ 6 ∧
  1 ≤ month f ≤ 12 ∧ 1 ≤ day_of_year f ≤ 366.
Proof.
  intros [_ [i Hf]%list_elem_of_lookup]%transform_data_elem.
  pose proof (engineer_features_calendar _ _ _ Hf) as Hcal.
  split; [exact Hcal|]. unfold calendar in Hcal.
  injection Hcal as -> -> -> -> _. apply calendar_ranges.
Qed.

Lemma calendar_columns_in_range_witness :
  calendar ramp200_first =
    (Calendar.hour (f_timestamp ramp200_first),
     Calendar.day_of_week (f_timestamp ramp200_first),
     Calendar.day_of_year (f_timestamp ramp200_first),
     Calendar.month (f_timestamp ramp200_first),
     Calendar.year (f_timestamp ramp200_first)) ∧
  0 ≤ hour ramp200_first ≤ 23 ∧ 0 ≤ day_of_week ramp200_first ≤ 6 ∧
  1 ≤ month ramp200_first ≤ 12 ∧ 1 ≤ day_of_year ramp200_first ≤ 366.
Proof.
  apply (calendar_columns_in_range ramp200 ramp200_first).
  apply list_elem_of_lookup. exists 0%nat. vm_compute. reflexivity.
Defined.

(** ** Series without missing hours *)

Lemma hourly_lookup start demand n i r :
  hourly start demand n !! i = Some r → timestamp r = start + Z.of_nat i.
Proof.
  unfold hourly. rewrite list_lookup_fmap.
  destruct (seq 0 n !! i) as [j|] eqn:Hj; [|done].
  apply lookup_seq in Hj as [-> _]. by intros [= <-].
Qed.

(** X6. When the cleaned series has one row per hour, the positional
    lags are wall-clock lags: [lag_demand_24h] is the demand of the row
    stamped 24 hours earlier, [lag_demand_1_week] that of the row
    stamped 168 hours earlier, and those rows share the hour of day
    (for the week, also the day of week) of the output row. *)
Theorem hourly_lags_are_wall_clock df t0 f :
  (∀ i r, clean df !! i = Some r → timestamp r = t0 + Z.of_nat i) →
  f ∈ transform_data df →
  ∃ r24 r168,
    r24 ∈ clean df ∧ timestamp r24 = f_timestamp f - 24 ∧
    lag_demand_24h f = demand_mwh r24 ∧
    Calendar.hour (timestamp r24) = hour f ∧
    r168 ∈ clean df ∧ timestamp r168 = f_timestamp f - 168 ∧
    lag_demand_1_week f = demand_mwh r168 ∧
    Calendar.hour (timestamp r168) = hour f ∧
    Calendar.day_of_week (timestamp r168) = day_of_week f.
Proof.
  intros Hhourly [Hc [i Hf]%list_elem_of_lookup]%transform_data_elem.
  destruct (complete_row _ _ _ Hf Hc)
    as (r & vals & Hr & Hts & _ & Hi & H24 & H168 & _).
  pose proof (engineer_features_calendar _ _ _ Hf) as Hcal.
  unfold calendar in Hcal. injection Hcal as Hhour Hdow _ _ _.
  pose proof (lookup_lt_Some _ _ _ Hr) as Hlt.
  destruct (lookup_lt_is_Some_2 (clean df) (i - 24)) as [r24 Hr24]; [lia|].
  destruct (lookup_lt_is_Some_2 (clean df) (i - 168)) as [r168 Hr168]; [lia|].
  pose proof (Hhourly _ _ Hr) as Ht. pose proof (Hhourly _ _ Hr24) as Ht24.
  pose proof (Hhourly _ _ Hr168) as Ht168.
  assert (timestamp r24 = f_timestamp f - 24) as E24 by lia.
  assert (timestamp r168 = f_timestamp f - 168) as E168 by lia.
  destruct (calendar_period (f_timestamp f)) as (P24 & P168 & Pdow).
  exists r24, r168. repeat split.
  - by eapply list_elem_of_lookup_2.
  - done.
  - rewrite H24. unfold cell. by rewrite list_lookup_fmap, Hr24.
  - by rewrite E24, P24.
  - by eapply list_elem_of_lookup_2.
  - done.
  - rewrite H168. unfold cell. by rewrite list_lookup_fmap, Hr168.
  - by rewrite E168, P168.
  - by rewrite E168, Pdow.
Qed.

Lemma hourly_lags_are_wall_clock_witness :
  ∃ r24 r168,
    r24 ∈ clean ramp200 ∧ timestamp r24 = f_timestamp ramp200_first - 24 ∧
    lag_demand_24h ramp200_first = demand_mwh r24 ∧
    Calendar.hour (timestamp r24) = hour ramp200_first ∧
    r168 ∈ clean ramp200 ∧ timestamp r168 = f_timestamp ramp200_first - 168 ∧
    lag_demand_1_week ramp200_first = demand_mwh r168 ∧
    Calendar.hour (timestamp r168) = hour ramp200_first ∧
    Calendar.day_of_week (timestamp r168) = day_of_week ramp200_first.
Proof.
  apply (hourly_lags_are_wall_clock ramp200 473352 ramp200_first).
  - assert (clean ramp200 = ramp200) as -> by (vm_compute; reflexivity).
    intros i r. apply hourly_lookup.
  - apply list_elem_of_lookup. exists 0%nat. vm_compute. reflexivity.
Defined.

(** ** The transformation script as a whole *)

Lemma get_sql_engine_result w :
  (get_sql_engine w).2 =
    match DB_PASSWORD w with
    | None | Some EmptyString => None
    | Some pw => Some (engine_for pw)
    end.
Proof. unfold get_sql_engine. by destruct (DB_PASSWORD w) as [[|a pw]|]. Qed.

Lemma Database_eq (d d' : Database) :
  reachable d = reachable d' → raw_demand d = raw_demand d' →
  features_demand d = features_demand d' → d = d'.
Proof. destruct d, d'. cbn. by intros -> -> ->. Qed.

Ltac prefix_of_appended :=
  repeat (apply prefix_app_r); reflexivity.

(** What a run never changes, and where it ends. *)
Lemma main_frame w :
  (main w).2 = Finished ∧ DB_PASSWORD (main w).1 = DB_PASSWORD w ∧
  stdout w `prefix_of` stdout (main w).1 ∧
  reachable (db (main w).1) = reachable (db w) ∧
  raw_demand (db (main w).1) = raw_demand (db w).
Proof.
  destruct w as [pw [reach raw feat] out].
  unfold main, get_sql_engine, load_raw_data, read_raw_demand, save_features_data,
    to_sql_replace, print, prints, set_db.
  destruct pw as [[|a pw]|]; cbn [DB_PASSWORD db stdout reachable raw_demand fst snd];
    [repeat split; try done; prefix_of_appended|
     |repeat split; try done; prefix_of_appended].
  destruct reach; cbn [DB_PASSWORD db stdout reachable raw_demand fst snd];
    [|repeat split; try done; prefix_of_appended].
  destruct raw as [rows|]; cbn [DB_PASSWORD db stdout reachable raw_demand fst snd];
    [|repeat split; try done; prefix_of_appended].
  case_decide; cbn [DB_PASSWORD db stdout reachable raw_demand fst snd
                    insert_features create_features drop_features];
    repeat split; try done; prefix_of_appended.
Qed.

(** The feature table a run leaves. *)
Lemma main_features w :
  features_demand (db (main w).1) =
    match (get_sql_engine w).2, read_raw_demand (db w) with
    | Some _, inr rows =>
        if decide (transform_data (sort_index rows) = [])
        then features_demand (db w)
        else Some (transform_data (sort_index rows))
    | _, _ => features_demand (db w)
    end.
Proof.
  rewrite get_sql_engine_result.
  destruct (DB_PASSWORD w) as [[|a pw]|] eqn:Hpw.
  - by destruct (main_no_engine w) as [_ ->]; [right|].
  - destruct (read_raw_demand (db w)) as [e|rows] eqn:Hread.
    + by destruct (main_load_failed w e Hread) as (_ & -> & _).
    + destruct (main_loaded w a pw rows Hpw Hread) as (_ & Hempty & Hsave).
      case_decide as He.
      * by destruct (Hempty He) as [-> _].
      * by destruct (to_sql_replace_inr _ _ _ (Hsave He)) as (-> & _).
  - by destruct (main_no_engine w) as [_ ->]; [left|].
Qed.

(** X7. A run of the transformation script never raises, never changes
    the raw table, the reachability of the database or the environment,
    and only appends to standard output. *)
Theorem main_leaves_raw_table w :
  (main w).2 = Finished ∧
  raw_demand (db (main w).1) = raw_demand (db w) ∧
  reachable (db (main w).1) = reachable (db w) ∧
  DB_PASSWORD (main w).1 = DB_PASSWORD w ∧
  stdout w `prefix_of` stdout (main w).1.
Proof. destruct (main_frame w) as (? & ? & ? & ? & ?). done. Qed.

(** X8. The transformation script is re-runnable: a second run leaves
    the database exactly as the first run left it. *)
Theorem main_rerun_idempotent w :
  db (main (main w).1).1 = db (main w).1.
Proof.
  destruct (main_frame w) as (_ & Hpw & _ & Hreach & Hraw).
  destruct (main_frame (main w).1) as (_ & _ & _ & Hreach' & Hraw').
  apply Database_eq; [done|done|].
  rewrite (main_features (main w).1).
  assert (read_raw_demand (db (main w).1) = read_raw_demand (db w)) as ->.
  { unfold read_raw_demand. by rewrite Hreach, Hraw. }
  rewrite (get_sql_engine_result (main w).1), Hpw, <- get_sql_engine_result.
  rewrite (main_features w).
  destruct (get_sql_engine w).2 as [engine|]; [|done].
  destruct (read_raw_demand (db w)) as [exn|rows]; [done|].
  by case_decide.
Qed.

(** X9. When the engine is obtained, the raw rows are read and the
    transformation retains a row, the run stores exactly the
    transformation of the sorted raw rows in [features_demand] and ends
    with the line that reports their number. *)
Theorem main_stores_transformation w engine rows :
  (get_sql_engine w).2 = Some engine →
  read_raw_demand (db w) = inr rows →
  transform_data (sort_index rows) ≠ [] →
  features_demand (db (main w).1) = Some (transform_data (sort_index rows)) ∧
  last (stdout (main w).1) =
    Some (Line ("Successfully saved " +:+
                pretty (length (transform_data (sort_index rows))) +:+
                " records to 'features_demand'.")).
Proof.
  intros Hengine Hread Hne.
  split.
  - rewrite main_features, Hengine, Hread. by rewrite decide_False.
  - apply get_sql_engine_Some in Hengine as (a & pw & Hpw).
    assert (reachable (db w) = true) as Hreach.
    { unfold read_raw_demand in Hread. by destruct (reachable (db w)). }
    destruct w as [pw' d out0]. cbn [DB_PASSWORD db] in *. subst pw'.
    unfold main, get_sql_engine, load_raw_data, save_features_data, print, prints,
      set_db, to_sql_replace.
    cbn [DB_PASSWORD db stdout fst snd]. rewrite Hread.
    cbn [DB_PASSWORD db stdout fst snd]. rewrite decide_True by done.
    cbn [DB_PASSWORD db stdout fst snd]. rewrite Hreach.
    cbn [DB_PASSWORD db stdout fst snd]. apply last_snoc.
Qed.

Lemma main_stores_transformation_witness :
  features_demand (db (main (world_with ramp200 None)).1) =
    Some (transform_data (sort_index ramp200)) ∧
  last (stdout (main (world_with ramp200 None)).1) =
    Some (Line ("Successfully saved " +:+
                pretty (length (transform_data (sort_index ramp200))) +:+
                " records to 'features_demand'.")).
Proof.
  apply (main_stores_transformation (world_with ramp200 None) (engine_for "secret")).
  - reflexivity.
  - reflexivity.
  - intros H. apply (f_equal length) in H. vm_compute in H. discriminate.
Defined.

(** X10. Without a password in the environment (unset or empty) the
    script prints the one line that says so and does nothing else. *)
Theorem main_without_password w :
  DB_PASSWORD w = None ∨ DB_PASSWORD w = Some EmptyString →
  main w =
    (print (Line "Could not create database engine: DB_PASSWORD not found in .env file!") w,
     Finished).
Proof.
  destruct w as [pw d out]. cbn [DB_PASSWORD]. by intros [-> | ->].
Qed.

Lemma main_without_password_witness :
  main (mkWorld None (mkDatabase true (Some ramp200) None) []) =
    (print (Line "Could not create database engine: DB_PASSWORD not found in .env file!")
       (mkWorld None (mkDatabase true (Some ramp200) None) []),
     Finished).
Proof.
  apply (main_without_password (mkWorld None (mkDatabase true (Some ramp200) None) [])).
  left. reflexivity.
Defined.

(** X11. When the database does not answer, [save_features_data]
    catches the error: the database, with the table stored before, is
    as it was, and the error is reported on standard output. *)
Theorem save_failure_keeps_table df w :
  reachable (db w) = false →
  db (save_features_data df w) = db w ∧
  stdout (save_features_data df w) =
    stdout w ++ [Line "Saving data to 'features_demand' table...";
                 Line ("Error saving data: " +:+ Exn_str OperationalError)].
Proof.
  intros Hdown. unfold save_features_data, to_sql_replace, print.
  cbn [db]. rewrite Hdown. cbn [db stdout]. by rewrite <- app_assoc.
Qed.

Lemma save_failure_keeps_table_witness :
  db (save_features_data [] (world_down ramp200 (Some [ramp200_first]))) =
    db (world_down ramp200 (Some [ramp200_first])) ∧
  stdout (save_features_data [] (world_down ramp200 (Some [ramp200_first]))) =
    stdout (world_down ramp200 (Some [ramp200_first])) ++
      [Line "Saving data to 'features_demand' table...";
       Line ("Error saving data: " +:+ Exn_str OperationalError)].
Proof.
  apply (save_failure_keeps_table [] (world_down ramp200 (Some [ramp200_first]))).
  reflexivity.
Defined.

(** X12. [load_raw_data] leaves the database as it is; the frame it
    returns holds exactly the rows of [raw_demand], none lost and none
    added, in ascending order of timestamp. *)
Theorem load_raw_data_sorted_rows w :
  db (load_raw_data w).1 = db w ∧
  ∀ df, (load_raw_data w).2 = Some df →
    ∃ rows, raw_demand (db w) = Some rows ∧ df ≡ₚ rows ∧
            StronglySorted Z.le (timestamp <$> df).
Proof.
  split.
  - unfold load_raw_data, print. cbn [db].
    by destruct (read_raw_demand (db w)).
  - intros df. rewrite load_raw_data_result. unfold read_raw_demand.
    destruct (reachable (db w)); [|done].
    destruct (raw_demand (db w)) as [rows|]; [|done].
    intros [= <-]. exists rows. split; [done|].
    split; [apply sort_index_Permutation|apply sort_index_sorted].
Qed.

Lemma load_raw_data_sorted_rows_witness :
  ∃ rows, raw_demand (db (world_with (reverse short_series) None)) = Some rows ∧
          short_series ≡ₚ rows ∧ StronglySorted Z.le (timestamp <$> short_series).
Proof.
  apply (proj2 (load_raw_data_sorted_rows (world_with (reverse short_series) None))).
  vm_compute. reflexivity.
Defined.

(** ** Ingestion: the insert that skips conflicts *)

Lemma drop_duplicates_from_seen_eq (s1 s2 : gset Z) df :
  s1 = s2 → drop_duplicates_from s1 df = drop_duplicates_from s2 df.
Proof. by intros ->. Qed.

(** The batch adds, after the rows already stored, the first row of
    each timestamp the table did not hold, and counts them. *)
Lemma executemany_spec rows : ∀ table,
  Ingest.executemany rows table =
    (table ++ drop_duplicates_from (list_to_set (timestamp <$> table)) rows,
     length (drop_duplicates_from (list_to_set (timestamp <$> table)) rows)).
Proof.
  induction rows as [|row rest IH]; intros table.
  - cbn. by rewrite app_nil_r.
  - cbn [Ingest.executemany]. unfold Ingest.insert_raw_demand.
    rewrite drop_duplicates_from_cons.
    destruct (decide (timestamp row ∈ timestamp <$> table)) as [Hin|Hnew].
    + rewrite IH. rewrite decide_True by by apply elem_of_list_to_set.
      assert ({[timestamp row]} ∪ list_to_set (timestamp <$> table) =
              (list_to_set (timestamp <$> table) : gset Z)) as ->; [|done].
      assert (timestamp row ∈ (list_to_set (timestamp <$> table) : gset Z))
        by by apply elem_of_list_to_set.
      set_solver.
    + rewrite IH. rewrite decide_False by by rewrite elem_of_list_to_set.
      assert (list_to_set (timestamp <$> table ++ [row]) =
              ({[timestamp row]} ∪ list_to_set (timestamp <$> table) : gset Z)) as ->.
      { rewrite fmap_app, list_to_set_app_L.
        change (timestamp <$> [row]) with [timestamp row].
        rewrite list_to_set_singleton_L. set_solver. }
      by rewrite <- app_assoc.
Qed.



Lemma NoDup_app_fresh df table :
  NoDup (timestamp <$> table) →
  NoDup (timestamp <$>
    table ++ drop_duplicates_from (list_to_set (timestamp <$> table)) df).
Proof.
  intros Hnd. rewrite fmap_app. apply NoDup_app. split; [done|]. split.
  - intros ts Hts (r & -> & Hr)%list_elem_of_fmap.
    apply drop_duplicates_from_fresh in Hr. by rewrite elem_of_list_to_set in Hr.
  - apply drop_duplicates_from_NoDup.
Qed.

(** X13. [executemany] with the conflict-skipping insert keeps the
    primary key: if no two stored rows share a timestamp, none do
    afterwards.  The rows already stored stay, unchanged and in place,
    and [rowcount] is the number of rows added. *)
Theorem executemany_keeps_primary_key rows table :
  NoDup (timestamp <$> table) →
  NoDup (timestamp <$> (Ingest.executemany rows table).1) ∧
  table `prefix_of` (Ingest.executemany rows table).1 ∧
  length (Ingest.executemany rows table).1 =
    (length table + (Ingest.executemany rows table).2)%nat.
Proof.
  intros Hnd. rewrite executemany_spec. cbn [fst snd].
  split; [by apply NoDup_app_fresh|]. split; [by eexists|].
  by rewrite length_app.
Qed.

Lemma executemany_keeps_primary_key_witness :
  NoDup (timestamp <$> (Ingest.executemany gappy short_series).1) ∧
  short_series `prefix_of` (Ingest.executemany gappy short_series).1 ∧
  length (Ingest.executemany gappy short_series).1 =
    (length short_series + (Ingest.executemany gappy short_series).2)%nat.
Proof.
  apply (executemany_keeps_primary_key gappy short_series).
  apply (bool_decide_unpack _). vm_compute. exact I.
Defined.



(** ** Ingestion: the script *)

Ltac unfold_ingest :=
  unfold Ingest.main, Ingest.fetch_eia_data, Ingest.get_db_connection,
    Ingest.create_raw_demand, Ingest.set_raw_demand, print, set_db;
  cbn [Ingest.EIA_API_KEY Ingest.response Ingest.world Ingest.status_code
       Ingest.text Ingest.data DB_PASSWORD db stdout reachable raw_demand
       features_demand fst snd from_option id].

Ltac step_ingest :=
  cbn [Ingest.EIA_API_KEY Ingest.response Ingest.world Ingest.status_code
       Ingest.text Ingest.data DB_PASSWORD db stdout reachable raw_demand
       features_demand fst snd from_option id].

(** The raw table after a run: as before, or the batch added to it. *)
Lemma ingest_main_raw e :
  db (Ingest.main e).1 = db (Ingest.world e) ∨
  (reachable (db (Ingest.world e)) = true ∧
   db (Ingest.main e).1 =
     mkDatabase true
       (Some (Ingest.executemany (Ingest.data (Ingest.response e))
                (default [] (raw_demand (db (Ingest.world e))))).1)
       (features_demand (db (Ingest.world e)))).
Proof.
  destruct e as [key [code txt dat] [pw [reach raw feat] out]]. unfold_ingest.
  destruct key as [[|a key]|]; [by left| |by left].
  destruct (decide (code = 200)) as [->|Hcode]; step_ingest; [|by left].
  destruct dat as [|r dat]; [by left|].
  destruct pw as [[|b pw]|]; step_ingest; [by left| |by left].
  destruct reach; step_ingest; [|by left].
  destruct (Ingest.executemany (r :: dat) (default [] raw)) as [table n].
  step_ingest. by right.
Qed.

(** X16. The ingestion script does not catch a missing setting: without
    the API key it stops with a [ValueError] before anything is printed
    or fetched, and without the database password (which
    [get_db_connection] checks inside a handler for connection errors
    only) it stops with a [ValueError] after the fetch.  The database
    is untouched in both cases. *)
Theorem ingest_missing_setting_raises :
  (∀ e, EIA_API_KEY_missing e →
     Ingest.main e =
       (Ingest.world e, Uncaught (ValueError "EIA_API_KEY not found in .env file!"))) ∧
  (∀ e key r rest,
     Ingest.EIA_API_KEY e = Some key → key ≠ EmptyString →
     Ingest.status_code (Ingest.response e) = 200 →
     Ingest.data (Ingest.response e) = r :: rest →
     DB_PASSWORD (Ingest.world e) = None ∨
       DB_PASSWORD (Ingest.world e) = Some EmptyString →
     (Ingest.main e).2 = Uncaught (ValueError "DB_PASSWORD not found in .env file!") ∧
     db (Ingest.main e).1 = db (Ingest.world e)).
Proof.
  split.
  - intros [key resp w] Hkey. unfold EIA_API_KEY_missing in Hkey.
    cbn [Ingest.EIA_API_KEY] in Hkey. unfold Ingest.main.
    cbn [Ingest.EIA_API_KEY Ingest.world]. by destruct Hkey as [-> | ->].
  - intros [key' [code txt dat] [pw d out]] key r rest.
    cbn [Ingest.EIA_API_KEY Ingest.response Ingest.world Ingest.status_code
         Ingest.data DB_PASSWORD].
    intros -> Hkey -> -> Hpw. unfold_ingest.
    destruct key as [|a key]; [done|]. rewrite decide_True by done. step_ingest.
    by destruct Hpw as [-> | ->].
Qed.

Lemma ingest_missing_setting_raises_witness :
  Ingest.main (ingest_env None (Some "secret") 200 gappy true None) =
    (Ingest.world (ingest_env None (Some "secret") 200 gappy true None),
     Uncaught (ValueError "EIA_API_KEY not found in .env file!")) ∧
  (Ingest.main (ingest_env (Some "key") None 200 gappy true None)).2 =
    Uncaught (ValueError "DB_PASSWORD not found in .env file!") ∧
  db (Ingest.main (ingest_env (Some "key") None 200 gappy true None)).1 =
    db (Ingest.world (ingest_env (Some "key") None 200 gappy true None)).
Proof.
  split.
  - apply (proj1 ingest_missing_setting_raises). by left.
  - apply (proj2 ingest_missing_setting_raises
             (ingest_env (Some "key") None 200 gappy true None)
             "key" (mkRaw 0 None) (tail gappy)); try done. by left.
Defined.

(** X17. The ingestion script stores nothing, creates no table and ends
    normally when the API answers with a status other than 200, when it
    answers with no rows, or when the database does not accept the
    connection. *)
Theorem ingest_nothing_to_store e key :
  Ingest.EIA_API_KEY e = Some key → key ≠ EmptyString →
  Ingest.status_code (Ingest.response e) ≠ 200 ∨
  Ingest.data (Ingest.response e) = [] ∨
  (is_Some (DB_PASSWORD (Ingest.world e)) ∧
   DB_PASSWORD (Ingest.world e) ≠ Some EmptyString ∧
   reachable (db (Ingest.world e)) = false) →
  (Ingest.main e).2 = Finished ∧ db (Ingest.main e).1 = db (Ingest.world e).
Proof.
  destruct e as [key' [code txt dat] [pw [reach raw feat] out]].
  step_ingest. intros -> Hkey Hcase. unfold_ingest.
  destruct key as [|a key]; [done|].
  destruct (decide (code = 200)) as [->|Hcode]; step_ingest; [|done].
  destruct dat as [|r dat]; [done|].
  destruct Hcase as [?|[?|([pw' ->] & Hpw & ->)]]; [done|done|].
  destruct pw' as [|b pw']; [done|]. by step_ingest.
Qed.

Lemma ingest_nothing_to_store_witness :
  ((Ingest.main (ingest_env (Some "key") (Some "secret") 503 gappy true None)).2 = Finished ∧
   db (Ingest.main (ingest_env (Some "key") (Some "secret") 503 gappy true None)).1 =
     db (Ingest.world (ingest_env (Some "key") (Some "secret") 503 gappy true None))) ∧
  ((Ingest.main (ingest_env (Some "key") (Some "secret") 200 gappy false None)).2 = Finished ∧
   db (Ingest.main (ingest_env (Some "key") (Some "secret") 200 gappy false None)).1 =
     db (Ingest.world (ingest_env (Some "key") (Some "secret") 200 gappy false None))).
Proof.
  split.
  - apply (ingest_nothing_to_store
             (ingest_env (Some "key") (Some "secret") 503 gappy true None) "key");
      [done|done|]. left. done.
  - apply (ingest_nothing_to_store
             (ingest_env (Some "key") (Some "secret") 200 gappy false None) "key");
      [done|done|]. right. right. split; [by eexists|done].
Defined.



Lemma NoDup_timestamps_sort_index rows :
  NoDup (timestamp <$> rows) → NoDup (timestamp <$> sort_index rows).
Proof.
  intros Hnd.
  by rewrite (fmap_Permutation timestamp _ _ (sort_index_Permutation rows)).
Qed.

(** X19. The raw table that the ingestion script leaves has one row per
    timestamp whenever the table it found had (or was missing); the
    frame loaded from such a table has no duplicate for
    [transform_data] to drop. *)
Theorem ingested_table_has_no_duplicates e rows :
  (∀ old, raw_demand (db (Ingest.world e)) = Some old → NoDup (timestamp <$> old)) →
  raw_demand (db (Ingest.main e).1) = Some rows →
  NoDup (timestamp <$> rows) ∧
  drop_duplicates (sort_index rows) = sort_index rows ∧
  duplicate_count rows = 0%nat.
Proof.
  intros Hold Hrows.
  assert (NoDup (timestamp <$> rows)) as Hnd.
  { destruct (ingest_main_raw e) as [Hsame|[_ Hnew]].
    - rewrite Hsame in Hrows. by apply Hold.
    - rewrite Hnew in Hrows. cbn [raw_demand] in Hrows. injection Hrows as <-.
      rewrite executemany_spec. cbn [fst]. apply NoDup_app_fresh.
      destruct (raw_demand (db (Ingest.world e))) as [old|]; [by apply Hold|].
      constructor. }
  split; [done|]. split.
  - by apply drop_duplicates_NoDup_id, NoDup_timestamps_sort_index.
  - pose proof (drop_duplicates_length rows) as Hlen.
    rewrite (drop_duplicates_NoDup_id rows Hnd) in Hlen.
    pose proof (sublist_length _ _ (drop_duplicates_from_sublist rows ∅)).
    unfold duplicate_count in *.
    pose proof (drop_duplicates_from_length rows ∅) as Hsize.
    rewrite difference_empty_L in Hsize. rewrite <- drop_duplicates_unfold in Hsize.
    rewrite (drop_duplicates_NoDup_id rows Hnd) in Hsize. lia.
Qed.

Lemma ingested_table_has_no_duplicates_witness :
  NoDup (timestamp <$> (Ingest.executemany gappy short_series).1) ∧
  drop_duplicates (sort_index (Ingest.executemany gappy short_series).1) =
    sort_index (Ingest.executemany gappy short_series).1 ∧
  duplicate_count (Ingest.executemany gappy short_series).1 = 0%nat.
Proof.
  apply (ingested_table_has_no_duplicates
           (ingest_env (Some "key") (Some "secret") 200 gappy true (Some short_series))).
  - intros old [= <-]. apply (bool_decide_unpack _). vm_compute. exact I.
  - vm_compute. reflexivity.
Defined.

(** ** Training: reading the feature table back *)

Global Instance by_f_timestamp_total : Total Train.by_f_timestamp.
Proof. intros a b. unfold Train.by_f_timestamp. lia. Qed.

Global Instance by_f_timestamp_trans : Transitive Train.by_f_timestamp.
Proof. intros a b c. unfold Train.by_f_timestamp. lia. Qed.

Lemma StronglySorted_by_f_timestamp (l : list FeatureRow) :
  StronglySorted Z.lt (f_timestamp <$> l) → StronglySorted Train.by_f_timestamp l.
Proof.
  induction l as [|x l IH]; [constructor|].
  rewrite fmap_cons. intros [Hl Hx]%StronglySorted_inv.
  constructor; [by apply IH|].
  rewrite Forall_fmap in Hx. eapply Forall_impl; [exact Hx|].
  intros y Hy. unfold Train.by_f_timestamp. cbn in Hy. lia.
Qed.

Lemma NoDup_fmap_elem_inj {A B} (f : A → B) (l : list A) x y :
  NoDup (f <$> l) → x ∈ l → y ∈ l → f x = f y → x = y.
Proof.
  intros Hnd [i Hi]%list_elem_of_lookup [j Hj]%list_elem_of_lookup Hxy.
  assert (i = j) as ->.
  { apply (NoDup_lookup (f <$> l) i j (f x)); [done|..].
    - by rewrite list_lookup_fmap, Hi.
    - by rewrite list_lookup_fmap, Hj, Hxy. }
  congruence.
Qed.

(** Ordering a table that is strictly increasing returns it as it is. *)
Lemma merge_sort_increasing (l : list FeatureRow) :
  StronglySorted Z.lt (f_timestamp <$> l) → merge_sort Train.by_f_timestamp l = l.
Proof.
  intros Hinc.
  apply (StronglySorted_unique_strong Train.by_f_timestamp).
  - intros x1 x2 Hx1 Hx2 H12 H21.
    rewrite merge_sort_Permutation in Hx1.
    apply (NoDup_fmap_elem_inj f_timestamp l); [|done|done|].
    + by apply StronglySorted_lt_NoDup.
    + unfold Train.by_f_timestamp in *. lia.
  - apply StronglySorted_merge_sort; apply _.
  - by apply StronglySorted_by_f_timestamp.
  - apply merge_sort_Permutation.
Qed.

Lemma load_features_data_result w :
  (Train.load_features_data w).2 =
    match Train.read_features_demand (db w) with
    | inr df => Some df
    | inl _ => None
    end.
Proof.
  unfold Train.load_features_data, print. cbn [db].
  by destruct (Train.read_features_demand (db w)).
Qed.

(** X20. What the transformation script stores is what the training
    script loads: after a run that saved, [load_features_data] returns
    exactly the frame [transform_data] produced, rows in the same
    order. *)
Theorem saved_features_load_back w engine rows :
  (get_sql_engine w).2 = Some engine →
  read_raw_demand (db w) = inr rows →
  transform_data (sort_index rows) ≠ [] →
  (Train.load_features_data (main w).1).2 = Some (transform_data (sort_index rows)).
Proof.
  intros Hengine Hread Hne.
  destruct (main_frame w) as (_ & _ & _ & Hreach & _).
  assert (reachable (db w) = true) as Hup.
  { unfold read_raw_demand in Hread. by destruct (reachable (db w)). }
  rewrite load_features_data_result. unfold Train.read_features_demand.
  rewrite Hreach, Hup, main_features, Hengine, Hread, decide_False by done.
  rewrite merge_sort_increasing; [done|].
  apply transform_data_increasing, sort_index_sorted.
Qed.

Lemma saved_features_load_back_witness :
  (Train.load_features_data (main (world_with ramp200 None)).1).2 =
    Some (transform_data (sort_index ramp200)).
Proof.
  apply (saved_features_load_back (world_with ramp200 None) (engine_for "secret")).
  - reflexivity.
  - reflexivity.
  - intros H. apply (f_equal length) in H. vm_compute in H. discriminate.
Defined.

(** X21. [load_features_data] leaves the database as it is.  It returns
    a frame exactly when the database answers and the feature table
    exists (so not before the first saving run); the frame holds the
    stored rows, none lost and none added, in ascending order of
    timestamp. *)
Theorem load_features_data_sorted_rows w :
  db (Train.load_features_data w).1 = db w ∧
  (is_Some (Train.load_features_data w).2 ↔
     reachable (db w) = true ∧ is_Some (features_demand (db w))) ∧
  ∀ df, (Train.load_features_data w).2 = Some df →
    ∃ table, features_demand (db w) = Some table ∧ df ≡ₚ table ∧
             StronglySorted Z.le (f_timestamp <$> df).
Proof.
  split; [|split].
  - unfold Train.load_features_data, print. cbn [db].
    by destruct (Train.read_features_demand (db w)).
  - rewrite load_features_data_result. unfold Train.read_features_demand.
    destruct (reachable (db w)); [|split; [by intros [? [=]]|by intros [[=] _]]].
    destruct (features_demand (db w)) as [table|].
    + split; [by intros _; split; [|eexists]|by eexists].
    + split; [by intros [? [=]]|by intros [_ [? [=]]]].
  - intros df. rewrite load_features_data_result. unfold Train.read_features_demand.
    destruct (reachable (db w)); [|done].
    destruct (features_demand (db w)) as [table|]; [|done].
    intros [= <-]. exists table. split; [done|].
    split; [apply merge_sort_Permutation|].
    apply (StronglySorted_fmap f_timestamp Train.by_f_timestamp); [done|].
    apply StronglySorted_merge_sort; apply _.
Qed.

Lemma load_features_data_sorted_rows_witness :
  ∃ table,
    features_demand (db (world_with [] (Some [ramp200_first]))) = Some table ∧
    [ramp200_first] ≡ₚ table ∧
    StronglySorted Z.le (f_timestamp <$> [ramp200_first]).
Proof.
  apply (proj2 (proj2 (load_features_data_sorted_rows
                         (world_with [] (Some [ramp200_first]))))).
  vm_compute. reflexivity.
Defined.

(** ** The rolling average *)

Lemma sum_list_Z_bounds lo hi (l : list Z) :
  Forall (λ v, lo ≤ v ≤ hi) l →
  lo * Z.of_nat (length l) ≤ sum_list_Z l ≤ hi * Z.of_nat (length l).
Proof.
  induction 1 as [|v l Hv Hl IH]; cbn [sum_list_Z foldr length]; [lia|].
  fold (sum_list_Z l). lia.
Qed.

Lemma mean_this (l : list Z) :
  (this (mean l) == inject_Z (sum_list_Z l) / inject_Z (Z.of_nat (length l)))%Q.
Proof.
  unfold mean, Qcdiv, Qcmult, Qcinv, Qc_of_Z. cbn [this Q2Qc].
  rewrite !Qred_correct. reflexivity.
Qed.

Lemma mean_bounds lo hi (l : list Z) :
  l ≠ [] → Forall (λ v, lo ≤ v ≤ hi) l →
  (Qc_of_Z lo ≤ mean l)%Qc ∧ (mean l ≤ Qc_of_Z hi)%Qc.
Proof.
  intros Hne Hall. pose proof (sum_list_Z_bounds lo hi l Hall) as [Hlo Hhi].
  assert (0 < Z.of_nat (length l)) as Hlen by (destruct l; [done|cbn [length]; lia]).
  assert (0 < inject_Z (Z.of_nat (length l)))%Q as HlenQ.
  { change 0%Q with (inject_Z 0). by rewrite <- Zlt_Qlt. }
  unfold Qcle. rewrite mean_this. cbn [this Qc_of_Z]. split.
  - apply Qle_shift_div_l; [done|]. rewrite <- inject_Z_mult, <- Zle_Qle. done.
  - apply Qle_shift_div_r; [done|]. rewrite <- inject_Z_mult, <- Zle_Qle. done.
Qed.

Lemma clean_demand_elem df v :
  Some v ∈ demand_mwh <$> clean df → v ∈ demands df.
Proof.
  rewrite clean_demand. intros [?|Hcell]%ffill_from_elem; [done|].
  apply list_elem_of_fmap in Hcell as (r & Hv & Hr).
  unfold demands. apply list_elem_of_omap. exists r. split; [|done].
  exact (sublist_subseteq _ _ (drop_duplicates_from_sublist df ∅) r Hr).
Qed.

(** X22. The rolling average of an output row lies between any two
    bounds that hold for the demands of the input: it is never below
    the smallest nor above the largest demand. *)
Theorem rolling_mean_within_bounds df f lo hi :
  f ∈ transform_data df →
  (∀ v, v ∈ demands df → lo ≤ v ≤ hi) →
  ∃ m, rolling_mean_24h f = Some m ∧ (Qc_of_Z lo ≤ m)%Qc ∧ (m ≤ Qc_of_Z hi)%Qc.
Proof.
  intros [Hc [i Hf]%list_elem_of_lookup]%transform_data_elem Hbounds.
  destruct (complete_row _ _ _ Hf Hc)
    as (r & vals & _ & _ & _ & _ & _ & _ & Hwin & Hlen & Hroll).
  exists (mean vals). split; [done|]. apply mean_bounds.
  - intros ->. done.
  - apply Forall_forall. intros v Hv. apply Hbounds, clean_demand_elem.
    assert (Some v ∈ prior_window 24 i (demand_mwh <$> clean df)) as Hin
      by (rewrite Hwin; by apply list_elem_of_fmap_2).
    unfold prior_window in Hin.
    apply (sublist_subseteq _ _ (sublist_take _ _)) in Hin.
    by apply (sublist_subseteq _ _ (sublist_drop _ _)) in Hin.
Qed.

Lemma ramp200_first_retained : ramp200_first ∈ transform_data ramp200.
Proof. apply list_elem_of_lookup. exists 0%nat. apply ramp200_first_row. Qed.

Lemma ramp200_demand_bounds v : v ∈ demands ramp200 → 1000 ≤ v ≤ 1199.
Proof.
  unfold demands, ramp200, hourly.
  intros (r & Hr & Hd)%list_elem_of_omap.
  apply list_elem_of_fmap in Hr as (i & -> & Hi).
  apply elem_of_seq in Hi. cbn [demand_mwh] in Hd. injection Hd as <-. lia.
Qed.

Lemma rolling_mean_within_bounds_witness :
  ∃ m, rolling_mean_24h ramp200_first = Some m ∧
       (Qc_of_Z 1000 ≤ m)%Qc ∧ (m ≤ Qc_of_Z 1199)%Qc.
Proof.
  apply (rolling_mean_within_bounds ramp200 ramp200_first 1000 1199).
  - exact ramp200_first_retained.
  - exact ramp200_demand_bounds.
Defined.
